(** * Session manager of app-posmin (auth.js): model and verified properties

    The module keeps a process-wide [authState], a timer handle
    [refreshInterval] and one [localStorage] slot.  Its functions are
    [async]: they are embedded in a state-and-exception monad over an
    explicit [World], in which every [await]ed call runs to completion
    before the caller goes on (no other task is interleaved between the
    awaits of one operation).  A call of [logout()] that is NOT awaited
    (in [apiCall]'s catch block and in the timer callback) runs only up to
    its first suspension point -- the timer is stopped and the /logout
    request is sent -- and is then parked in [pending], to be resumed by
    [resumeLogout]. *)

From Stdlib Require Import Ascii String List ZArith Bool Lia.
Import ListNotations.
Local Open Scope string_scope.
Local Open Scope list_scope.
Local Open Scope Z_scope.

(** ** JavaScript values *)

(** The values that can reach the module: a missing property
    ([VUndefined]), [null], booleans, strings and objects.  An object
    carries its identity [id] (the reference) and its own properties;
    the objects the module builds itself (request bodies, the stand-in
    error body) carry [id] 0 and are only serialised or read, never
    compared.  Numbers and arrays are outside the modelled fragment. *)
#[warnings="-register-all"] Inductive value : Type :=
| VUndefined
| VNull
| VBool (b : bool)
| VStr (s : string)
| VObj (id : nat) (fields : list (string * value)).

(** ToBoolean. *)
Definition truthy (v : value) : bool :=
  match v with
  | VUndefined | VNull => false
  | VBool b => b
  | VStr s => negb (s =? "")%string
  | VObj _ _ => true
  end.

(** ToString, as used by template literals and by [localStorage.setItem]. *)
Definition to_string (v : value) : string :=
  match v with
  | VUndefined => "undefined"
  | VNull => "null"
  | VBool true => "true"
  | VBool false => "false"
  | VStr s => s
  | VObj _ _ => "[object Object]"
  end.

(** [a || b]. *)
Definition js_or (a b : value) : value := if truthy a then a else b.

(** SameValueZero, the comparison of [Array.prototype.includes]. *)
Definition same_value_zero (a b : value) : bool :=
  match a, b with
  | VUndefined, VUndefined => true
  | VNull, VNull => true
  | VBool x, VBool y => Bool.eqb x y
  | VStr x, VStr y => (x =? y)%string
  | VObj i _, VObj j _ => Nat.eqb i j
  | _, _ => false
  end.

(** [roles.includes(x)]. *)
Definition includes (roles : list value) (x : value) : bool :=
  existsb (fun r => same_value_zero r x) roles.

Fixpoint lookup_field (k : string) (fs : list (string * value)) : value :=
  match fs with
  | [] => VUndefined
  | (k', v) :: fs' => if (k =? k')%string then v else lookup_field k fs'
  end.

(** ** Exceptions *)

Inductive exn : Type :=
| Error (message : string)   (* [new Error(message)] *)
| TypeError                  (* property read on [null] or [undefined] *)
| SyntaxError                (* [response.json()] on a body that is not JSON *)
| FetchError.                (* [fetch] rejected: the request did not complete *)

(** ** The network *)

Record Options : Type := mkOptions {
  o_method : string;
  o_headers : list (string * string);
  o_body : option value            (* the value given to [JSON.stringify] *)
}.

(** A request as [fetch] receives it; the URL is [API_BASE] followed by
    [r_endpoint]. *)
Record Request : Type := mkRequest {
  r_endpoint : string;
  r_options : Options
}.

Record Response : Type := mkResponse {
  status : Z;
  json : option value              (* [None]: the body does not parse *)
}.

Inductive FetchOutcome : Type :=
| Rejected
| Responded (r : Response).

(** [response.ok]. *)
Definition ok (r : Response) : bool := (200 <=? status r) && (status r <=? 299).

(** The remote service: what a request receives, given the requests sent
    before it. *)
Definition Server : Type := list Request -> Request -> FetchOutcome.

(** ** The state of the page *)

Record AuthState : Type := mkAuthState {
  access : value;
  refresh : value;
  user : value
}.

Record Timer : Type := mkTimer {
  t_handle : positive;
  t_period : Z
}.

(** An un-awaited [logout()] suspended on the [fetch] of its
    [apiCall("/logout", "POST")]. *)
Record Task : Type := mkTask {
  k_options : Options;
  k_outcome : FetchOutcome
}.

Record World : Type := mkWorld {
  authState : AuthState;
  refreshInterval : option positive;  (* [null] or the handle of setInterval *)
  storage : option string;            (* the slot REFRESH_TOKEN_KEY *)
  timers : list Timer;                (* the intervals the browser has active *)
  next_handle : positive;
  requests : list Request;            (* every fetch so far, oldest first *)
  navigations : list string;          (* [window.location.replace] calls *)
  console : list (string * exn);      (* what [console.error] was given *)
  pending : list Task
}.

Definition REFRESH_TOKEN_KEY : string := "refresh_token".
Definition REFRESH_INTERVAL : Z := 25200000.

Definition no_auth : AuthState := mkAuthState VNull VNull VNull.

(** The page right after it is loaded, with [stored] in the storage slot. *)
Definition fresh_page (stored : option string) : World :=
  mkWorld no_auth None stored [] 1%positive [] [] [] [].

Definition set_authState (a : AuthState) (w : World) : World :=
  mkWorld a (refreshInterval w) (storage w) (timers w) (next_handle w)
          (requests w) (navigations w) (console w) (pending w).

Definition set_refreshInterval (h : option positive) (w : World) : World :=
  mkWorld (authState w) h (storage w) (timers w) (next_handle w)
          (requests w) (navigations w) (console w) (pending w).

Definition set_storage (s : option string) (w : World) : World :=
  mkWorld (authState w) (refreshInterval w) s (timers w) (next_handle w)
          (requests w) (navigations w) (console w) (pending w).

Definition set_timers (ts : list Timer) (n : positive) (w : World) : World :=
  mkWorld (authState w) (refreshInterval w) (storage w) ts n
          (requests w) (navigations w) (console w) (pending w).

Definition set_requests (rs : list Request) (w : World) : World :=
  mkWorld (authState w) (refreshInterval w) (storage w) (timers w)
          (next_handle w) rs (navigations w) (console w) (pending w).

Definition set_navigations (ns : list string) (w : World) : World :=
  mkWorld (authState w) (refreshInterval w) (storage w) (timers w)
          (next_handle w) (requests w) ns (console w) (pending w).

Definition set_console (c : list (string * exn)) (w : World) : World :=
  mkWorld (authState w) (refreshInterval w) (storage w) (timers w)
          (next_handle w) (requests w) (navigations w) c (pending w).

Definition set_pending (p : list Task) (w : World) : World :=
  mkWorld (authState w) (refreshInterval w) (storage w) (timers w)
          (next_handle w) (requests w) (navigations w) (console w) p.

(** The world once [rq] has left the page. *)
Definition sent (rq : Request) (w : World) : World :=
  set_requests (requests w ++ [rq]) w.

(** ** The monad of the module's functions *)

Inductive outcome (A : Type) : Type :=
| Ok (a : A)           (* the promise is fulfilled *)
| Throw (e : exn)      (* the promise is rejected *)
| OutOfFuel.           (* the model ran out of recursion depth *)
Arguments Ok {A} a.
Arguments Throw {A} e.
Arguments OutOfFuel {A}.

Definition M (A : Type) : Type := World -> outcome A * World.

Definition ret {A} (a : A) : M A := fun w => (Ok a, w).
Definition throw {A} (e : exn) : M A := fun w => (Throw e, w).
Definition out_of_fuel {A} : M A := fun w => (OutOfFuel, w).

Definition bind {A B} (m : M A) (k : A -> M B) : M B :=
  fun w =>
    match m w with
    | (Ok a, w') => k a w'
    | (Throw e, w') => (Throw e, w')
    | (OutOfFuel, w') => (OutOfFuel, w')
    end.

(** [try { m } catch (error) { h error }]. *)
Definition try_catch {A} (m : M A) (h : exn -> M A) : M A :=
  fun w =>
    match m w with
    | (Throw e, w') => h e w'
    | r => r
    end.

Definition modify (f : World -> World) : M unit := fun w => (Ok tt, f w).
Definition gets {A} (f : World -> A) : M A := fun w => (Ok (f w), w).

(** Lifting the result of a pure step that may throw. *)
Definition lift {A} (r : exn + A) : M A :=
  match r with
  | inr a => ret a
  | inl e => throw e
  end.

Declare Scope auth_scope.
Delimit Scope auth_scope with auth.
Notation "x <- m ;; k" := (bind m (fun x => k))
  (at level 61, m at next level, right associativity) : auth_scope.
Notation "m ;; k" := (bind m (fun _ => k))
  (at level 61, right associativity) : auth_scope.
Local Open Scope auth_scope.

(** [v.k]: reading a property throws on [null] and [undefined]; a
    primitive has none of the properties this module reads. *)
Definition get_field (v : value) (k : string) : exn + value :=
  match v with
  | VUndefined | VNull => inl TypeError
  | VObj _ fs => inr (lookup_field k fs)
  | VBool _ | VStr _ => inr VUndefined
  end.

(** ** The module's functions *)

Section Auth.

(** The remote service the page talks to. *)
Variable srv : Server.

(** [localStorage.getItem(REFRESH_TOKEN_KEY)]: [None] is [null]. *)
Definition getStoredRefresh : M (option string) := gets storage.

(** Truthiness of what [getItem] returned. *)
Definition present (stored : option string) : bool :=
  match stored with
  | Some s => negb (s =? "")%string
  | None => false
  end.

(** What [getItem] returned, as a value. *)
Definition of_stored (stored : option string) : value :=
  match stored with
  | Some s => VStr s
  | None => VNull
  end.

Definition setStoredRefresh (token : value) : M unit :=
  if truthy token
  then modify (set_storage (Some (to_string token)))
  else modify (set_storage None).

(** Assigning a property of a headers object: an existing key keeps its
    place, a new one goes last. *)
Fixpoint set_header (k v : string) (hs : list (string * string))
  : list (string * string) :=
  match hs with
  | [] => [(k, v)]
  | (k', v') :: hs' =>
      if (k =? k')%string then (k, v) :: hs' else (k', v') :: set_header k v hs'
  end.

Definition bearer (a : value) : string := ("Bearer " ++ to_string a)%string.

(** Lines 29-42 (and 182-195): the [options] of a request, given the
    access token [a] in [authState]. *)
Definition options_for (a : value) (method : string) (body : value)
  : Options :=
  let headers := [("Content-Type", "application/json")] in
  let headers :=
    if truthy a then set_header "Authorization" (bearer a) headers
    else headers in
  mkOptions method headers (if truthy body then Some body else None).

Definition build_options (method : string) (body : value) : M Options :=
  a <- gets (fun w => access (authState w)) ;;
  ret (options_for a method body).

(** [fetch(API_BASE + endpoint, options)]: the request leaves, and its
    fate is the server's. *)
Definition fetch (endpoint : string) (options : Options) : M FetchOutcome :=
  fun w =>
    let rq := mkRequest endpoint options in
    (Ok (srv (requests w) rq), sent rq w).

(** [await] of the promise [fetch] returned. *)
Definition await (o : FetchOutcome) : M Response :=
  match o with
  | Responded r => ret r
  | Rejected => throw FetchError
  end.

(** [response.json()]. *)
Definition response_json (r : Response) : M value :=
  match json r with
  | Some v => ret v
  | None => throw SyntaxError
  end.

(** Lines 66-71 (and 199-204): the failure built from a non-2xx response. *)
Definition fail_with_body {A} (response : Response) : M A :=
  let error :=
    match json response with
    | Some v => v
    | None => VObj 0 [("error", VStr "Error desconocido")]
    end in
  e <- lift (get_field error "error") ;;
  if truthy e then throw (Error (to_string e))
  else
    m <- lift (get_field error "message") ;;
    throw (Error (to_string (js_or m (VStr "Error en la petición")))).

(** Lines 66-73 (and 199-206). *)
Definition settle_plain (response : Response) : M value :=
  if negb (ok response) then fail_with_body response
  else response_json response.

(** [options] with the Authorization header set again (lines 51-55). *)
Definition with_authorization (options : Options) (a : value) : Options :=
  mkOptions (o_method options)
            (set_header "Authorization" (bearer a) (o_headers options))
            (o_body options).

Definition clearInterval (h : positive) : M unit :=
  modify (fun w =>
    set_timers
      (filter (fun t => negb (Pos.eqb (t_handle t) h)) (timers w))
      (next_handle w) w).

Definition stopAutoRefresh : M unit :=
  h <- gets refreshInterval ;;
  match h with
  | Some h =>
      clearInterval h ;;
      modify (set_refreshInterval None)
  | None => ret tt
  end.

(** The part of a [logout()] call that runs before its first suspension:
    [stopAutoRefresh()] and, in [apiCall("/logout", "POST")], everything
    up to the [await] of [fetch]. *)
Definition logout_begin : M Task :=
  stopAutoRefresh ;;
  options <- build_options "POST" VNull ;;
  o <- fetch "/logout" options ;;
  ret (mkTask options o).

(** [logout()] called without [await]: it is left suspended. *)
Definition logout_unawaited : M unit :=
  k <- logout_begin ;;
  modify (fun w => set_pending (pending w ++ [k]) w).

(** [apiCall] from line 46 on, once the first [fetch] has settled.
    [return retry.json()] hands the promise over without awaiting it, so
    a body that does not parse is not caught by the [catch] block. *)
Definition apiCall_settle (refreshToken : M value) (endpoint : string)
    (options : Options) (o : FetchOutcome) : M value :=
  response <- await o ;;
  if (status response =? 401) && negb (endpoint =? "/refresh")%string then
    retry <-
      try_catch
        (refreshToken ;;
         a <- gets (fun w => access (authState w)) ;;
         o' <- fetch endpoint (with_authorization options a) ;;
         retry <- await o' ;;
         if negb (ok retry) then throw (Error "Retry failed")
         else ret retry)
        (fun error => logout_unawaited ;; throw error) ;;
    response_json retry
  else settle_plain response.

(** Lines 107-113 of [refreshToken]: the response is taken over. *)
Definition refresh_adopt (res : value) : M value :=
  a <- lift (get_field res "accessToken") ;;
  modify (fun w => set_authState
    (mkAuthState a (refresh (authState w)) (user (authState w))) w) ;;
  r <- lift (get_field res "refreshToken") ;;
  modify (fun w => set_authState
    (mkAuthState (access (authState w)) r (user (authState w))) w) ;;
  u <- lift (get_field res "user") ;;
  modify (fun w => set_authState
    (mkAuthState (access (authState w)) (refresh (authState w)) u) w) ;;
  r' <- lift (get_field res "refreshToken") ;;
  setStoredRefresh r' ;;
  ret res.

Fixpoint apiCall (fuel : nat) (endpoint method : string) (body : value)
  : M value :=
  match fuel with
  | O => out_of_fuel
  | S n =>
      options <- build_options method body ;;
      o <- fetch endpoint options ;;
      apiCall_settle (refreshToken n) endpoint options o
  end

with refreshToken (fuel : nat) : M value :=
  match fuel with
  | O => out_of_fuel
  | S n =>
      stored <- getStoredRefresh ;;
      if negb (present stored) then throw (Error "No hay refresh token")
      else
        res <- apiCall n "/refresh" "POST"
                 (VObj 0 [("refresh_token", of_stored stored)]) ;;
        refresh_adopt res
  end.

(** [try { m } finally { f }], for an [f] that does not throw. *)
Definition try_finally {A} (m : M A) (f : M unit) : M A :=
  fun w =>
    match m w with
    | (OutOfFuel, w') => (OutOfFuel, w')
    | (r, w') => (r, snd (f w'))
    end.

Definition console_error (label : string) (error : exn) : M unit :=
  modify (fun w => set_console (console w ++ [(label, error)]) w).

Definition location_replace (url : string) : M unit :=
  modify (fun w => set_navigations (navigations w ++ [url]) w).

(** The [finally] block of [logout] (lines 124-126). *)
Definition logout_cleanup : M unit :=
  modify (set_authState (mkAuthState VNull VNull VNull)) ;;
  setStoredRefresh VNull ;;
  location_replace "/index.html".

Definition logout (fuel : nat) : M unit :=
  stopAutoRefresh ;;
  try_finally
    (try_catch
       (apiCall fuel "/logout" "POST" VNull ;; ret tt)
       (fun error => console_error "Error al hacer logout:" error))
    logout_cleanup.

(** A suspended [logout()] goes on once its [fetch] has settled. *)
Definition logout_resume (fuel : nat) (k : Task) : M unit :=
  try_finally
    (try_catch
       (apiCall_settle (refreshToken fuel) "/logout" (k_options k) (k_outcome k) ;;
        ret tt)
       (fun error => console_error "Error al hacer logout:" error))
    logout_cleanup.

(** The event loop resumes the oldest suspended [logout()]. *)
Definition resumeLogout (fuel : nat) : M unit :=
  p <- gets pending ;;
  match p with
  | [] => ret tt
  | k :: p' =>
      modify (set_pending p') ;;
      logout_resume fuel k
  end.

(** [setInterval(callback, period)]: the browser hands out a new handle. *)
Definition setInterval (period : Z) : M positive :=
  fun w =>
    (Ok (next_handle w),
     set_timers (timers w ++ [mkTimer (next_handle w) period])
                (Pos.succ (next_handle w)) w).

Definition startAutoRefresh : M unit :=
  stopAutoRefresh ;;
  h <- setInterval REFRESH_INTERVAL ;;
  modify (set_refreshInterval (Some h)).

(** One run of the callback given to [setInterval] (lines 133-140). *)
Definition tick (fuel : nat) : M unit :=
  try_catch
    (refreshToken fuel ;; ret tt)
    (fun error =>
       console_error "Error auto-refresh:" error ;;
       logout_unawaited).

Definition login (fuel : nat) (email password : value) : M value :=
  res <- apiCall fuel "/login" "POST"
           (VObj 0 [("email", email); ("password", password)]) ;;
  a <- lift (get_field res "accessToken") ;;
  r <- lift (get_field res "refreshToken") ;;
  u <- lift (get_field res "user") ;;
  modify (set_authState (mkAuthState a r u)) ;;
  r' <- lift (get_field res "refreshToken") ;;
  setStoredRefresh r' ;;
  startAutoRefresh ;;
  ret res.

Definition register (fuel : nat) (email password company_name : value)
  : M value :=
  apiCall fuel "/register" "POST"
    (VObj 0 [("email", email); ("password", password);
             ("company_name", company_name)]).

Definition initAuth (fuel : nat) : M value :=
  stored <- getStoredRefresh ;;
  if negb (present stored) then throw (Error "No autenticado")
  else
    res <- refreshToken fuel ;;
    startAutoRefresh ;;
    ret res.

Definition requireAuth : M unit :=
  stored <- getStoredRefresh ;;
  if negb (present stored) then location_replace "/index.html"
  else ret tt.

Definition isAuthenticated : M bool :=
  stored <- getStoredRefresh ;;
  ret (negb (negb (present stored))).

Definition getUser : M value := gets (fun w => user (authState w)).

Definition getAccessToken : M value := gets (fun w => access (authState w)).

(** [authState.user && roles.includes(authState.user.role)]. *)
Definition hasRole (roles : list value) : M value :=
  u <- gets (fun w => user (authState w)) ;;
  if truthy u then
    role <- lift (get_field u "role") ;;
    ret (VBool (includes roles role))
  else ret u.

Definition apiRequest (endpoint method : string) (body : value) : M value :=
  options <- build_options method body ;;
  o <- fetch endpoint options ;;
  response <- await o ;;
  settle_plain response.

(** The renewal as the specification words it: its request goes through
    the storage-only variant [apiRequest], which has no 401 branch. *)
Definition refresh_via_apiRequest : M value :=
  stored <- getStoredRefresh ;;
  if negb (present stored) then throw (Error "No hay refresh token")
  else
    res <- apiRequest "/refresh" "POST"
             (VObj 0 [("refresh_token", of_stored stored)]) ;;
    refresh_adopt res.

End Auth.

(** ** Notions used by the statements *)

(** Nothing but the session, the storage slot and the request log moved. *)
Definition same_page (w w' : World) : Prop :=
  refreshInterval w' = refreshInterval w /\
  timers w' = timers w /\
  next_handle w' = next_handle w /\
  navigations w' = navigations w /\
  console w' = console w /\
  pending w' = pending w.

(** The browser runs exactly the interval [refreshInterval] names. *)
Definition timer_inv (w : World) : Prop :=
  timers w =
  match refreshInterval w with
  | Some h => [mkTimer h REFRESH_INTERVAL]
  | None => []
  end.

(** How many of the requests [l] went to [endpoint]. *)
Definition count_to (endpoint : string) (l : list Request) : nat :=
  length (filter (fun rq => (r_endpoint rq =? endpoint)%string) l).

(** The request [apiCall] sends again after a renewal: the same endpoint
    and options, with the access token that [authState] now holds. *)
Definition retry_request (endpoint : string) (options : Options) (w : World)
  : Request :=
  mkRequest endpoint (with_authorization options (access (authState w))).

(** The intervals left once [stopAutoRefresh] has run. *)
Definition timers_after_stop (w : World) : list Timer :=
  match refreshInterval w with
  | Some h => filter (fun t => negb (Pos.eqb (t_handle t) h)) (timers w)
  | None => timers w
  end.

(** What a renewal leaves alone, as [apiCall] relies on it. *)
Definition renewal_like (r : M value) : Prop :=
  forall w x w',
    r w = (x, w') ->
    same_page w w' /\ x <> OutOfFuel /\
    (requests w' = requests w \/
     exists o, requests w' = requests w ++ [mkRequest "/refresh" o]).

(** [w'] differs from [w] by a [logout()] that was started or not at all. *)
Definition logout_started_or_not {A} (w : World) (x : outcome A) (w' : World)
  : Prop :=
  (refreshInterval w' = refreshInterval w /\ timers w' = timers w /\
   pending w' = pending w) \/
  (refreshInterval w' = None /\ timers w' = timers_after_stop w /\
   (exists k, pending w' = pending w ++ [k]) /\ exists e, x = Throw e).

(** The refresh credential in memory is the one in the storage slot. *)
Definition mirrored (w : World) : Prop :=
  refresh (authState w) = of_stored (storage w).

(** ** The page as a transition system *)

(** What can happen to the page: a call of one of the functions the
    module exports, a run of the interval callback, or the event loop
    resuming a suspended [logout()]. *)
Inductive call : Type :=
| Register (email password company_name : value)
| Login (email password : value)
| Logout
| RefreshToken
| InitAuth
| RequireAuth
| IsAuthenticated
| GetUser
| GetAccessToken
| HasRole (roles : list value)
| ApiRequest (endpoint method : string) (body : value)
| TimerTick
| ResumeLogout.

Definition perform (srv : Server) (fuel : nat) (c : call) (w : World) : World :=
  match c with
  | Register e p c => snd (register srv fuel e p c w)
  | Login e p => snd (login srv fuel e p w)
  | Logout => snd (logout srv fuel w)
  | RefreshToken => snd (refreshToken srv fuel w)
  | InitAuth => snd (initAuth srv fuel w)
  | RequireAuth => snd (requireAuth w)
  | IsAuthenticated => snd (isAuthenticated w)
  | GetUser => snd (getUser w)
  | GetAccessToken => snd (getAccessToken w)
  | HasRole roles => snd (hasRole roles w)
  | ApiRequest e m b => snd (apiRequest srv e m b w)
  | TimerTick => snd (tick srv fuel w)
  | ResumeLogout => snd (resumeLogout srv fuel w)
  end.

(** The states the page can be in, from its load on. *)
Inductive reachable (srv : Server) : World -> Prop :=
| reach_load (stored : option string) : reachable srv (fresh_page stored)
| reach_step (w : World) (c : call) (n : nat) :
    reachable srv w -> reachable srv (perform srv (S (S (S n))) c w).

(** ** Scenarios *)

Definition session_body (a r : string) : value :=
  VObj 1 [("accessToken", VStr a); ("refreshToken", VStr r);
          ("user", VObj 2 [("id", VStr "u1"); ("email", VStr "a@x.com");
                           ("role", VStr "admin")])].

(** The page after [login("a@x.com", "pw")] was answered with
    [session_body "A1" "R1"]. *)
Definition session_page : World :=
  mkWorld (mkAuthState (VStr "A1") (VStr "R1")
             (VObj 2 [("id", VStr "u1"); ("email", VStr "a@x.com");
                      ("role", VStr "admin")]))
          (Some 1%positive) (Some "R1")
          [mkTimer 1%positive REFRESH_INTERVAL] 2%positive [] [] [] [].

(** A service that accepts every login and every renewal, and answers
    /orders with 401 until a renewal has been made. *)
Definition friendly_server : Server :=
  fun history rq =>
    if (r_endpoint rq =? "/login")%string then
      Responded (mkResponse 200 (Some (session_body "A1" "R1")))
    else if (r_endpoint rq =? "/refresh")%string then
      Responded (mkResponse 200 (Some (session_body "A2" "R2")))
    else if (r_endpoint rq =? "/orders")%string then
      if Nat.eqb (count_to "/refresh" history) 0
      then Responded (mkResponse 401 None)
      else Responded (mkResponse 200 (Some (VStr "orders")))
    else Responded (mkResponse 200 (Some VNull)).

(** A service that renews sessions but answers every login with 401. *)
Definition rejecting_server : Server :=
  fun history rq =>
    if (r_endpoint rq =? "/refresh")%string then
      Responded (mkResponse 200 (Some (session_body "A2" "R2")))
    else if (r_endpoint rq =? "/login")%string then
      Responded (mkResponse 401
        (Some (VObj 3 [("error", VStr "Credenciales invalidas")])))
    else Responded (mkResponse 200 (Some VNull)).

(** A service that answers every request with 500. *)
Definition failing_server : Server :=
  fun history rq =>
    Responded (mkResponse 500 (Some (VObj 3 [("message", VStr "boom")]))).

(** No network. *)
Definition offline_server : Server := fun history rq => Rejected.

(** A service whose sessions carry an empty refresh token. *)
Definition empty_token_server : Server :=
  fun history rq => Responded (mkResponse 200 (Some (session_body "A1" ""))).

(** A service for which every access token has expired: it renews
    sessions and answers every other request with 401. *)
Definition expired_server : Server :=
  fun history rq =>
    if (r_endpoint rq =? "/refresh")%string then
      Responded (mkResponse 200 (Some (session_body "A2" "R2")))
    else Responded (mkResponse 401 None).

(** As [expired_server], but its renewals carry no access token. *)
Definition tokenless_server : Server :=
  fun history rq =>
    if (r_endpoint rq =? "/refresh")%string then
      Responded (mkResponse 200 (Some (VObj 1 [("refreshToken", VStr "R2")])))
    else Responded (mkResponse 401 None).

(** A service that answers every request with 200 and the JSON string
    "ok". *)
Definition text_body_server : Server :=
  fun history rq => Responded (mkResponse 200 (Some (VStr "ok"))).

(** * The selector parser of mount.js

    [parseSelector] and [clearCaches], with the two module-level caches
    they work on.  A string is a sequence of UTF-16 code units; the model
    reads each [ascii] as a code unit below 256.  The functions that
    build DOM nodes are not modelled. *)

Module Mount.

Definition code (c : ascii) : nat := nat_of_ascii c.

(** The code units below 256 that [\s] matches and [trim] strips:
    TAB, LF, VT, FF, CR, SPACE and NO-BREAK SPACE. *)
Definition is_space (c : ascii) : bool :=
  let n := code c in
  Nat.eqb n 9 || Nat.eqb n 10 || Nat.eqb n 11 || Nat.eqb n 12 ||
  Nat.eqb n 13 || Nat.eqb n 32 || Nat.eqb n 160.

(** [[a-zA-Z]]. *)
Definition is_letter (c : ascii) : bool :=
  let n := code c in
  (Nat.leb 97 n && Nat.leb n 122) || (Nat.leb 65 n && Nat.leb n 90).

(** [[a-zA-Z0-9]]. *)
Definition is_alnum (c : ascii) : bool :=
  let n := code c in
  is_letter c || (Nat.leb 48 n && Nat.leb n 57).

(** [[a-zA-Z0-9_-]]. *)
Definition is_word (c : ascii) : bool :=
  let n := code c in
  is_alnum c || Nat.eqb n 95 || Nat.eqb n 45.

Definition is_dot (c : ascii) : bool := Nat.eqb (code c) 46.

Fixpoint trim_start (s : string) : string :=
  match s with
  | String c r => if is_space c then trim_start r else s
  | EmptyString => EmptyString
  end.

Fixpoint trim_end (s : string) : string :=
  match s with
  | String c r =>
      match trim_end r with
      | EmptyString => if is_space c then EmptyString else String c EmptyString
      | r' => String c r'
      end
  | EmptyString => EmptyString
  end.

(** [selector.trim()]. *)
Definition trim (s : string) : string := trim_end (trim_start s).

(** The longest prefix of [[a-zA-Z0-9]], and what follows it. *)
Fixpoint span_alnum (s : string) : string * string :=
  match s with
  | String c r =>
      if is_alnum c then
        let (t, rest) := span_alnum r in (String c t, rest)
      else (EmptyString, s)
  | EmptyString => (EmptyString, EmptyString)
  end.

(** Where a match of the second group stands: runs of [[a-zA-Z0-9_-]]
    separated by runs of white space, up to the end of the string. *)
Inductive class_state : Type :=
| NeedWord     (* nothing read yet *)
| InWord       (* inside a run of word characters *)
| InSpace.     (* inside a run of white space, after a word *)

(** Does [s] complete a match from state [st]?  Word characters and
    white space are disjoint, so the expression matches in one way at
    most and no backtracking is lost. *)
Fixpoint class_list (st : class_state) (s : string) : bool :=
  match s with
  | EmptyString =>
      match st with
      | InWord => true
      | _ => false
      end
  | String c r =>
      if is_word c then class_list InWord r
      else if is_space c then
        match st with
        | NeedWord => false
        | _ => class_list InSpace r
        end
      else false
  end.

(** [SELECTOR_REGEX.exec(s)] for the expression of line 8, anchored at
    both ends: an optional first group, a letter followed by any number
    of letters and digits; then, optionally, a dot followed by the second
    group, the class names of [class_list].
    [None] is [null], otherwise the two capture groups, [None] for
    [undefined].  The first group, when [s] starts with a letter, is the
    whole run of alphanumerics: after a shorter one, or after none, the
    next character is an alphanumeric and neither a dot nor the end.  The
    expression has no [g] flag, so [exec] keeps no state. *)
Definition selector_exec (s : string)
  : option (option string * option string) :=
  let '(g1, rest) :=
    match s with
    | String c _ =>
        if is_letter c then
          let (t, r) := span_alnum s in (Some t, r)
        else (None, s)
    | EmptyString => (None, s)
    end in
  match rest with
  | EmptyString => Some (g1, None)
  | String c r =>
      if is_dot c then
        if class_list NeedWord r then Some (g1, Some r) else None
      else None
  end.

(** [s.replace(/\s+/g, ' ')]; [in_space] says that the character before
    belonged to a run already replaced. *)
Fixpoint collapse (in_space : bool) (s : string) : string :=
  match s with
  | String c r =>
      if is_space c then
        if in_space then collapse true r
        else String " "%char (collapse true r)
      else String c (collapse false r)
  | EmptyString => EmptyString
  end.

(** [s.split('.')]. *)
Fixpoint split_dot (s : string) : list string :=
  match s with
  | String c r =>
      if is_dot c then EmptyString :: split_dot r
      else
        match split_dot r with
        | p :: ps => String c p :: ps
        | [] => [String c EmptyString]
        end
  | EmptyString => [EmptyString]
  end.

(** [parts.join(' ')]. *)
Fixpoint join_space (parts : list string) : string :=
  match parts with
  | [] => EmptyString
  | [p] => p
  | p :: ps => (p ++ " " ++ join_space ps)%string
  end.

Record Parsed : Type := mkParsed {
  tag : string;
  className : string
}.

(** [x || 'div'] for an [x] that is a string or [undefined]. *)
Definition or_div (x : option string) : string :=
  match x with
  | Some t => if (t =? "")%string then "div" else t
  | None => "div"
  end.

(** Lines 16-32: the result for a selector that is not cached. *)
Definition parse (selector : string) : Parsed :=
  let trimmed := trim selector in
  match selector_exec trimmed with
  | Some (m1, m2) =>
      mkParsed (or_div m1)
        match m2 with
        | Some c => if (c =? "")%string then "" else collapse false c
        | None => ""
        end
  | None =>
      let parts := split_dot trimmed in
      mkParsed (or_div (nth_error parts 0))
        (if Nat.ltb 1 (length parts) then join_space (skipn 1 parts) else "")
  end.

(** A pooled text node. *)
Record TextNode : Type := mkTextNode {
  node_id : nat;
  textContent : string
}.

(** The module-level state: [SELECTOR_CACHE], a [Map] kept as the list of
    its entries in insertion order, and [TEXT_NODE_POOL]. *)
Record State : Type := mkState {
  SELECTOR_CACHE : list (string * Parsed);
  TEXT_NODE_POOL : list TextNode
}.

Definition initial : State := mkState [] [].

(** [Map.prototype.get]; [None] when [has] is false. *)
Fixpoint cache_get (k : string) (c : list (string * Parsed)) : option Parsed :=
  match c with
  | [] => None
  | (k', v) :: c' => if (k =? k')%string then Some v else cache_get k c'
  end.

(** [Map.prototype.set]: an existing key keeps its place. *)
Fixpoint cache_set (k : string) (v : Parsed) (c : list (string * Parsed))
  : list (string * Parsed) :=
  match c with
  | [] => [(k, v)]
  | (k', v') :: c' =>
      if (k =? k')%string then (k, v) :: c' else (k', v') :: cache_set k v c'
  end.

Definition parseSelector (selector : string) (st : State) : Parsed * State :=
  match cache_get selector (SELECTOR_CACHE st) with
  | Some cached => (cached, st)
  | None =>
      let result := parse selector in
      (result,
       if Nat.ltb (length (SELECTOR_CACHE st)) 1000
       then mkState (cache_set selector result (SELECTOR_CACHE st))
                    (TEXT_NODE_POOL st)
       else st)
  end.

(** [while (TEXT_NODE_POOL.length > 100) TEXT_NODE_POOL.pop()], with the
    number of rounds left. *)
Fixpoint pop_while_over (rounds : nat) (pool : list TextNode)
  : list TextNode :=
  match rounds with
  | O => pool
  | S rounds' =>
      if Nat.ltb 100 (length pool)
      then pop_while_over rounds' (removelast pool)
      else pool
  end.

(** The loop pops once per round and stops at 100, so the length of the
    pool is rounds enough. *)
Definition clearCaches (st : State) : State :=
  mkState [] (pop_while_over (length (TEXT_NODE_POOL st)) (TEXT_NODE_POOL st)).

(** The states of the module: it starts with both caches empty; only
    [parseSelector] (called by [el]) adds to the selector cache and only
    [clearCaches] empties it. *)
Inductive reachable : State -> Prop :=
| reach_initial : reachable initial
| reach_parse (selector : string) (st : State) :
    reachable st -> reachable (snd (parseSelector selector st))
| reach_clear (st : State) :
    reachable st -> reachable (clearCaches st).

(** A selector written as [tag.class1.class2...]. *)
Fixpoint dotted (classes : list string) : string :=
  match classes with
  | [] => EmptyString
  | c :: cs => (String "."%char c ++ dotted cs)%string
  end.

Fixpoint all_chars (p : ascii -> bool) (s : string) : bool :=
  match s with
  | String c r => p c && all_chars p r
  | EmptyString => true
  end.

(** A tag name as the expression wants it: a letter, then letters and
    digits. *)
Definition tag_name (t : string) : bool :=
  match t with
  | String c _ => is_letter c && all_chars is_alnum t
  | EmptyString => false
  end.

(** A class name: one word character or more. *)
Definition class_name (c : string) : bool :=
  negb (c =? "")%string && all_chars is_word c.

(** Every cached result is the one [parse] gives for its key. *)
Definition cache_sound (c : list (string * Parsed)) : Prop :=
  forall k v, cache_get k c = Some v -> v = parse k.

End Mount.

(** * Properties *)

Section Properties.

Variable srv : Server.

Ltac monad :=
  cbv [bind ret throw out_of_fuel gets modify lift try_catch try_finally
       getStoredRefresh await response_json build_options fetch].

Ltac split_match :=
  repeat match goal with
         | |- context [match ?x with _ => _ end] => destruct x eqn:?
         | |- context [if ?x then _ else _] => destruct x eqn:?
         end.

Lemma apiCall_unfold (n : nat) (e m : string) (b : value) (w : World) :
  let options := options_for (access (authState w)) m b in
  let rq := mkRequest e options in
  apiCall srv (S n) e m b w =
  apiCall_settle srv (refreshToken srv n) e options (srv (requests w) rq)
                 (sent rq w).
Proof. reflexivity. Qed.

Lemma apiRequest_unfold (e m : string) (b : value) (w : World) :
  let options := options_for (access (authState w)) m b in
  let rq := mkRequest e options in
  apiRequest srv e m b w =
  bind (await (srv (requests w) rq)) settle_plain (sent rq w).
Proof. reflexivity. Qed.

(** On the refresh endpoint the guard of line 46 is false whatever the
    status is. *)
Lemma apiCall_settle_refresh (r : M value) (options : Options)
    (o : FetchOutcome) (w : World) :
  apiCall_settle srv r "/refresh" options o w = bind (await o) settle_plain w.
Proof.
  unfold apiCall_settle, bind.
  destruct (await o w) as [[response | e |] w']; try reflexivity.
  now rewrite andb_false_r.
Qed.

Lemma apiCall_refresh_endpoint (n : nat) (m : string) (b : value) (w : World) :
  apiCall srv (S n) "/refresh" m b w = apiRequest srv "/refresh" m b w.
Proof.
  rewrite apiCall_unfold, apiRequest_unfold.
  apply apiCall_settle_refresh.
Qed.

Lemma refreshToken_enough (n : nat) (w : World) :
  refreshToken srv (S (S n)) w = refresh_via_apiRequest srv w.
Proof.
  unfold refresh_via_apiRequest.
  cbn [refreshToken]. unfold bind at 1 3.
  destruct (getStoredRefresh w) as [[stored | e |] w']; try reflexivity.
  destruct (negb (present stored)); try reflexivity.
  unfold bind. fold (apiCall srv (S n)).
  now rewrite apiCall_refresh_endpoint.
Qed.

(** *** What a renewal can and cannot touch *)

Lemma fail_with_body_throws (A : Type) (response : Response) (w : World) :
  exists e, @fail_with_body A response w = (Throw e, w).
Proof.
  unfold fail_with_body. monad.
  destruct (json response) as [[| | b | s | i fs] |]; cbn;
    split_match; eauto.
Qed.

Lemma refresh_adopt_ok (res : value) (w : World) (v : value) (w' : World) :
  refresh_adopt res w = (Ok v, w') ->
  exists a r u,
    get_field res "accessToken" = inr a /\
    get_field res "refreshToken" = inr r /\
    get_field res "user" = inr u /\
    v = res /\
    w' = set_storage (if truthy r then Some (to_string r) else None)
           (set_authState (mkAuthState a r u) w).
Proof.
  unfold refresh_adopt, setStoredRefresh. monad.
  destruct res as [| | b | s | i fs]; cbn; try discriminate.
  - destruct w; intros H; injection H as <- <-. exists VUndefined, VUndefined, VUndefined.
    cbn. auto.
  - destruct w; intros H; injection H as <- <-. exists VUndefined, VUndefined, VUndefined.
    cbn. auto.
  - destruct (truthy (lookup_field "refreshToken" fs)) eqn:T; cbn;
      destruct w; intros H; injection H as <- <-; do 3 eexists;
      rewrite T; cbn; auto 6.
Qed.

Lemma refresh_adopt_throw (res : value) (w : World) (e : exn) (w' : World) :
  refresh_adopt res w = (Throw e, w') -> w' = w.
Proof.
  unfold refresh_adopt, setStoredRefresh. monad.
  destruct res as [| | b | s | i fs]; cbn; try congruence.
  destruct (truthy (lookup_field "refreshToken" fs)); cbn; discriminate.
Qed.

Lemma refresh_adopt_fuel (res : value) (w : World) :
  fst (refresh_adopt res w) <> OutOfFuel.
Proof.
  unfold refresh_adopt, setStoredRefresh. monad.
  destruct res as [| | b | s | i fs]; cbn; try discriminate.
  destruct (truthy (lookup_field "refreshToken" fs)); cbn; discriminate.
Qed.

Lemma refresh_via_apiRequest_frame (w : World) (r : outcome value) (w' : World) :
  refresh_via_apiRequest srv w = (r, w') ->
  same_page w w' /\ r <> OutOfFuel /\
  (requests w' = requests w \/
   exists o, requests w' = requests w ++ [mkRequest "/refresh" o]).
Proof.
  unfold refresh_via_apiRequest.
  unfold bind at 1. unfold getStoredRefresh, gets.
  destruct (negb (present (storage w))).
  { intros H; injection H as <- <-. unfold same_page. repeat split; auto.
    discriminate. }
  unfold bind. rewrite apiRequest_unfold.
  set (rq := mkRequest _ _).
  assert (F : same_page w (sent rq w)) by (unfold same_page; cbn; auto 7).
  assert (R : requests (sent rq w) = requests w ++ [rq]) by reflexivity.
  unfold bind.
  destruct (srv (requests w) rq) as [| response]; cbn [await].
  { intros H; injection H as <- <-. repeat split; try apply F; try discriminate.
    right. eauto. }
  unfold ret at 1. unfold settle_plain.
  destruct (negb (ok response)).
  { destruct (fail_with_body_throws value response (sent rq w)) as [e ->].
    intros H; injection H as <- <-.
    repeat split; try apply F; try discriminate. right; eauto. }
  unfold response_json.
  destruct (json response) as [res |].
  2:{ intros H; injection H as <- <-.
      repeat split; try apply F; try discriminate. right; eauto. }
  unfold ret at 1.
  destruct (refresh_adopt res (sent rq w)) as [[v | e |] w1] eqn:E.
  - intros H; injection H as <- <-.
    apply refresh_adopt_ok in E as (a & t & u & _ & _ & _ & _ & ->).
    repeat split; try apply F; try discriminate. right; eauto.
  - intros H; injection H as <- <-.
    apply refresh_adopt_throw in E as ->.
    repeat split; try apply F; try discriminate. right; eauto.
  - exfalso. apply (refresh_adopt_fuel res (sent rq w)). now rewrite E.
Qed.

Lemma refreshToken_frame (n : nat) (w : World) (r : outcome value) (w' : World) :
  refreshToken srv (S (S n)) w = (r, w') ->
  same_page w w' /\ r <> OutOfFuel /\
  (requests w' = requests w \/
   exists o, requests w' = requests w ++ [mkRequest "/refresh" o]).
Proof. rewrite refreshToken_enough. apply refresh_via_apiRequest_frame. Qed.

(** The un-awaited [logout()] always gets as far as its [fetch]. *)
Lemma logout_unawaited_runs (w : World) :
  logout_unawaited srv w = (Ok tt, snd (logout_unawaited srv w)).
Proof.
  unfold logout_unawaited, logout_begin, stopAutoRefresh, clearInterval.
  monad. now destruct (refreshInterval w).
Qed.

Lemma logout_unawaited_frame (w : World) :
  let w' := snd (logout_unawaited srv w) in
  authState w' = authState w /\ storage w' = storage w /\
  refreshInterval w' = None /\
  timers w' = timers (snd (stopAutoRefresh w)) /\
  next_handle w' = next_handle w /\
  navigations w' = navigations w /\
  console w' = console w /\
  (exists k, pending w' = pending w ++ [k]) /\
  (exists o, requests w' = requests w ++ [mkRequest "/logout" o]).
Proof.
  unfold logout_unawaited, logout_begin, stopAutoRefresh, clearInterval.
  monad. destruct (refreshInterval w) eqn:E; cbn; rewrite ?E; eauto 12.
Qed.

Lemma settle_plain_world (response : Response) (w : World) :
  snd (settle_plain response w) = w /\ fst (settle_plain response w) <> OutOfFuel.
Proof.
  unfold settle_plain.
  destruct (negb (ok response)).
  - destruct (fail_with_body_throws value response w) as [e ->]. now split.
  - unfold response_json. now destruct (json response).
Qed.

Lemma apiRequest_world (e m : string) (b : value) (w : World) :
  snd (apiRequest srv e m b w) =
    sent (mkRequest e (options_for (access (authState w)) m b)) w /\
  fst (apiRequest srv e m b w) <> OutOfFuel.
Proof.
  rewrite apiRequest_unfold. unfold bind.
  destruct (srv _ _) as [| response]; cbn [await throw ret]; [now split |].
  apply settle_plain_world.
Qed.

(** *** The 401 protocol of [apiCall] *)

Lemma apiCall_settle_401 (r : M value) (endpoint : string) (options : Options)
    (response : Response) (w : World) :
  status response = 401 ->
  endpoint <> "/refresh" ->
  apiCall_settle srv r endpoint options (Responded response) w =
  match r w with
  | (Ok _, w1) =>
      let rq' := retry_request endpoint options w1 in
      match srv (requests w1) rq' with
      | Responded retry =>
          if ok retry then response_json retry (sent rq' w1)
          else (Throw (Error "Retry failed"),
                snd (logout_unawaited srv (sent rq' w1)))
      | Rejected =>
          (Throw FetchError, snd (logout_unawaited srv (sent rq' w1)))
      end
  | (Throw e, w1) => (Throw e, snd (logout_unawaited srv w1))
  | (OutOfFuel, w1) => (OutOfFuel, w1)
  end.
Proof.
  intros H401 Hne. apply String.eqb_neq in Hne.
  unfold apiCall_settle. cbn [await]. unfold bind at 1. unfold ret at 1.
  rewrite H401, Hne. cbn [Z.eqb Pos.eqb negb andb].
  unfold bind at 1. unfold try_catch. unfold bind at 1.
  destruct (r w) as [[res | e |] w1]; [| | reflexivity].
  - unfold retry_request. cbv [bind gets fetch].
    destruct (srv _ _) as [| retry]; cbn [await throw ret].
    + now rewrite logout_unawaited_runs.
    + destruct (ok retry); cbn [negb]; [reflexivity |].
      unfold throw. now rewrite logout_unawaited_runs.
  - unfold bind, throw. now rewrite logout_unawaited_runs.
Qed.

Lemma apiCall_settle_plain (r : M value) (endpoint : string)
    (options : Options) (response : Response) (w : World) :
  (status response =? 401) && negb (endpoint =? "/refresh")%string = false ->
  apiCall_settle srv r endpoint options (Responded response) w =
  settle_plain response w.
Proof.
  intros H. unfold apiCall_settle. cbn [await]. unfold bind, ret. now rewrite H.
Qed.

Lemma count_to_app (e : string) (l1 l2 : list Request) :
  count_to e (l1 ++ l2) = (count_to e l1 + count_to e l2)%nat.
Proof. unfold count_to. now rewrite filter_app, length_app. Qed.

Lemma count_to_one (e e' : string) (o : Options) :
  e' <> e -> count_to e [mkRequest e' o] = 0%nat.
Proof.
  intros H. apply String.eqb_neq in H. unfold count_to. cbn. now rewrite H.
Qed.

Lemma count_to_same (e : string) (o : Options) :
  count_to e [mkRequest e o] = 1%nat.
Proof. unfold count_to. cbn [filter r_endpoint]. now rewrite String.eqb_refl. Qed.

Lemma count_to_le (e : string) (l : list Request) :
  (count_to e l <= length l)%nat.
Proof. apply filter_length_le. Qed.

Lemma logout_unawaited_started (A : Type) (w0 w : World) (e : exn) :
  refreshInterval w = refreshInterval w0 ->
  timers w = timers w0 ->
  pending w = pending w0 ->
  @logout_started_or_not A w0 (Throw e) (snd (logout_unawaited srv w)).
Proof.
  intros H1 H2 H3. right.
  destruct (logout_unawaited_frame w) as (_ & _ & R & T & _ & _ & _ & [k P] & _).
  rewrite R, T, P, H3. repeat split; eauto.
  unfold timers_after_stop, stopAutoRefresh, clearInterval. monad.
  rewrite <- H1, <- H2. now destruct (refreshInterval w).
Qed.

(** Everything one [apiCall] can do to the page, from its first [await] on. *)
Lemma apiCall_settle_frame (r : M value) (endpoint : string)
    (options : Options) (o : FetchOutcome) (w : World) :
  renewal_like r ->
  let x := fst (apiCall_settle srv r endpoint options o w) in
  let w' := snd (apiCall_settle srv r endpoint options o w) in
  x <> OutOfFuel /\
  navigations w' = navigations w /\
  console w' = console w /\
  next_handle w' = next_handle w /\
  logout_started_or_not w x w' /\
  exists l,
    requests w' = requests w ++ l /\
    (length l <= 3)%nat /\
    (endpoint <> "/logout" -> (count_to endpoint l <= 1)%nat) /\
    (count_to endpoint l <= 2)%nat.
Proof.
  intros Hr.
  assert (Plain : forall x, @logout_started_or_not value w x w)
    by (left; auto).
  assert (Nil : exists l, requests w = requests w ++ l /\ (length l <= 3)%nat /\
                 (endpoint <> "/logout" -> (count_to endpoint l <= 1)%nat) /\
                 (count_to endpoint l <= 2)%nat).
  { exists []. rewrite app_nil_r. cbn. repeat split; lia. }
  destruct o as [| response].
  { cbn. repeat split; auto. discriminate. }
  destruct ((status response =? 401) && negb (endpoint =? "/refresh")%string)
    eqn:G.
  2:{ rewrite (apiCall_settle_plain _ _ _ _ _ G).
      destruct (settle_plain_world response w) as [-> F]. cbn zeta.
      repeat split; auto. }
  apply andb_true_iff in G as [G1 G2].
  apply Z.eqb_eq in G1. apply negb_true_iff, String.eqb_neq in G2.
  rewrite (apiCall_settle_401 _ _ _ _ _ G1 G2).
  destruct (r w) as [[res | e |] w1] eqn:R;
    apply Hr in R as ((I & T & N & V & C & P) & F & Q).
  - cbv zeta. set (rq' := retry_request endpoint options w1).
    assert (Q' : exists l, requests (sent rq' w1) = requests w ++ l /\
                   (length l <= 2)%nat /\ count_to endpoint l = 1%nat).
    { assert (One : count_to endpoint [rq'] = 1%nat) by apply count_to_same.
      destruct Q as [Q | [o Q]]; cbn [sent set_requests requests]; rewrite Q.
      - exists [rq']. cbn [length]. repeat split; try lia.
      - exists ([mkRequest "/refresh" o] ++ [rq']).
        rewrite <- app_assoc, count_to_app, One, count_to_one; auto. }
    assert (Started : forall e,
      let w2 := snd (logout_unawaited srv (sent rq' w1)) in
      navigations w2 = navigations w /\ console w2 = console w /\
      next_handle w2 = next_handle w /\
      @logout_started_or_not value w (Throw e) w2 /\
      exists l, requests w2 = requests w ++ l /\ (length l <= 3)%nat /\
        (endpoint <> "/logout" -> (count_to endpoint l <= 1)%nat) /\
        (count_to endpoint l <= 2)%nat).
    { intros e w2.
      destruct (logout_unawaited_frame (sent rq' w1))
        as (_ & _ & _ & _ & N' & V' & C' & _ & [o' Q2]).
      fold w2 in N', V', C', Q2.
      rewrite N', V', C'. cbn [sent set_requests next_handle navigations console].
      repeat split; auto.
      - now apply logout_unawaited_started.
      - destruct Q' as (l & Q1 & L & K).
        exists (l ++ [mkRequest "/logout" o']).
        rewrite Q2, Q1, <- app_assoc, length_app, count_to_app. cbn [length].
        pose proof (count_to_le endpoint [mkRequest "/logout" o']) as B.
        cbn [length] in B.
        split; [reflexivity |]. split; [lia |]. split; [| lia].
        intros Hl. rewrite count_to_one; [lia | now apply not_eq_sym]. }
    destruct (srv (requests w1) rq') as [| retry].
    + cbn [fst snd]. split; [discriminate |]. apply Started.
    + destruct (ok retry).
      * unfold response_json.
        assert (W : forall y : outcome value,
                  y <> OutOfFuel ->
                  y <> OutOfFuel /\
                  navigations (sent rq' w1) = navigations w /\
                  console (sent rq' w1) = console w /\
                  next_handle (sent rq' w1) = next_handle w /\
                  logout_started_or_not w y (sent rq' w1) /\
                  exists l, requests (sent rq' w1) = requests w ++ l /\
                    (length l <= 3)%nat /\
                    (endpoint <> "/logout" -> (count_to endpoint l <= 1)%nat) /\
                    (count_to endpoint l <= 2)%nat).
        { intros y Hy. cbn [sent set_requests next_handle navigations console].
          repeat split; auto.
          - left. cbn. auto.
          - destruct Q' as (l & Q1 & L & K). exists l. repeat split; auto; lia. }
        destruct (json retry); cbn [fst snd ret throw]; apply W; discriminate.
      * cbn [fst snd]. split; [discriminate |]. apply Started.
  - cbn [fst snd]. split; [discriminate |].
    destruct (logout_unawaited_frame w1)
      as (_ & _ & _ & _ & N' & V' & C' & _ & [o' Q2]).
    rewrite N', V', C'. repeat split; auto.
    + now apply logout_unawaited_started.
    + destruct Q as [Q | [o Q]]; rewrite Q2, Q.
      * exists [mkRequest "/logout" o'].
        pose proof (count_to_le endpoint [mkRequest "/logout" o']) as B.
        cbn [length] in B |- *.
        split; [reflexivity |]. split; [lia |]. split; [| lia].
        intros Hl. rewrite count_to_one; [lia | now apply not_eq_sym].
      * exists [mkRequest "/refresh" o; mkRequest "/logout" o'].
        pose proof (count_to_le endpoint
                      [mkRequest "/refresh" o; mkRequest "/logout" o']) as B.
        rewrite <- app_assoc. cbn [length app] in B |- *.
        split; [reflexivity |]. split; [lia |]. split; [| lia].
        intros Hl. change [mkRequest "/refresh" o; mkRequest "/logout" o']
          with ([mkRequest "/refresh" o] ++ [mkRequest "/logout" o']).
        rewrite count_to_app, !count_to_one; auto using not_eq_sym.
  - now elim F.
Qed.

Lemma apiCall_frame (n : nat) (e m : string) (b : value) (w : World) :
  let x := fst (apiCall srv (S (S (S n))) e m b w) in
  let w' := snd (apiCall srv (S (S (S n))) e m b w) in
  x <> OutOfFuel /\
  navigations w' = navigations w /\
  console w' = console w /\
  next_handle w' = next_handle w /\
  logout_started_or_not w x w'.
Proof.
  rewrite apiCall_unfold.
  set (rq := mkRequest _ _).
  destruct (apiCall_settle_frame (refreshToken srv (S (S n))) e
              (options_for (access (authState w)) m b)
              (srv (requests w) rq) (sent rq w))
    as (F & N & C & H & L & _).
  { intros w0 x w0'. apply refreshToken_frame. }
  repeat split; auto.
Qed.

(** *** Login *)

Lemma startAutoRefresh_runs (w : World) :
  let w' := snd (startAutoRefresh w) in
  startAutoRefresh w = (Ok tt, w') /\
  refreshInterval w' = Some (next_handle w) /\
  timers w' = timers_after_stop w ++ [mkTimer (next_handle w) REFRESH_INTERVAL] /\
  authState w' = authState w /\ storage w' = storage w /\
  requests w' = requests w /\ navigations w' = navigations w /\
  console w' = console w /\ pending w' = pending w.
Proof.
  unfold startAutoRefresh, stopAutoRefresh, clearInterval, setInterval,
    timers_after_stop.
  monad. destruct (refreshInterval w); cbn; auto 10.
Qed.

Lemma login_ok (n : nat) (email password res : value) (w w' : World) :
  login srv (S (S (S n))) email password w = (Ok res, w') ->
  exists a r u w1,
    apiCall srv (S (S (S n))) "/login" "POST"
      (VObj 0 [("email", email); ("password", password)]) w = (Ok res, w1) /\
    get_field res "accessToken" = inr a /\
    get_field res "refreshToken" = inr r /\
    get_field res "user" = inr u /\
    w' = snd (startAutoRefresh
                (set_storage (if truthy r then Some (to_string r) else None)
                   (set_authState (mkAuthState a r u) w1))).
Proof.
  unfold login. unfold bind at 1.
  destruct (apiCall srv _ _ _ _ w) as [[v | e |] w1]; try discriminate.
  unfold setStoredRefresh. unfold bind, lift, modify.
  destruct (get_field v "accessToken") as [e | a] eqn:Ea;
    cbn [throw ret]; try discriminate.
  destruct (get_field v "refreshToken") as [e | r] eqn:Er;
    cbn [throw ret]; try discriminate.
  destruct (get_field v "user") as [e | u] eqn:Eu;
    cbn [throw ret]; try discriminate.
  destruct (truthy r) eqn:T; cbn [ret];
    match goal with
    | |- context [startAutoRefresh ?x] =>
        destruct (startAutoRefresh_runs x) as [E _]; rewrite E
    end;
    intros H; injection H as <- <-;
    exists a, r, u, w1; rewrite ?Ea, ?Er, ?Eu, ?T; auto.
Qed.

(** *** Renewal *)

(** C5.  A [refreshToken()] made while the storage slot holds no refresh
    credential throws "No hay refresh token" and leaves the whole page as
    it was: no request is sent, no [logout()] is started, the session and
    the slot are untouched. *)
Theorem refreshToken_without_credential (n : nat) (w : World) :
  present (storage w) = false ->
  refreshToken srv (S n) w = (Throw (Error "No hay refresh token"), w).
Proof.
  intros H. cbn [refreshToken].
  unfold bind, getStoredRefresh, gets. now rewrite H.
Qed.

(** C8.  The renewal behaves exactly as if its request were issued through
    the storage-only variant [apiRequest]: on the refresh endpoint
    [apiCall] is [apiRequest], so a renewal sends at most one request, to
    the refresh endpoint, and never starts a [logout()]. *)
Theorem refreshToken_is_plain_variant (n : nat) (w : World) :
  (forall m b, apiCall srv (S n) "/refresh" m b w =
               apiRequest srv "/refresh" m b w) /\
  refreshToken srv (S (S n)) w = refresh_via_apiRequest srv w /\
  (let w' := snd (refreshToken srv (S (S n)) w) in
   pending w' = pending w /\
   (requests w' = requests w \/
    exists o, requests w' = requests w ++ [mkRequest "/refresh" o])).
Proof.
  split; [| split].
  - intros m b. apply apiCall_refresh_endpoint.
  - apply refreshToken_enough.
  - destruct (refreshToken srv (S (S n)) w) as [x w'] eqn:E.
    apply refreshToken_frame in E as ((_ & _ & _ & _ & _ & P) & _ & Q).
    now split.
Qed.

Lemma refreshToken_failure_keeps (n : nat) (w : World) (e : exn) (w1 : World) :
  refreshToken srv (S (S n)) w = (Throw e, w1) ->
  authState w1 = authState w /\ storage w1 = storage w.
Proof.
  rewrite refreshToken_enough.
  unfold refresh_via_apiRequest. unfold bind at 1.
  unfold getStoredRefresh, gets.
  destruct (negb (present (storage w))).
  { intros E. injection E as <- <-. now split. }
  unfold bind.
  destruct (apiRequest_world "/refresh" "POST"
              (VObj 0 [("refresh_token", of_stored (storage w))]) w)
    as [W _].
  destruct (apiRequest srv _ _ _ w) as [[v | e' |] w0]; cbn [snd] in W;
    subst w0; try discriminate.
  - intros E. apply refresh_adopt_throw in E as ->. now split.
  - intros E. injection E as <- <-. now split.
Qed.

Lemma initAuth_unfold (fuel : nat) (w : World) :
  present (storage w) = true ->
  initAuth srv fuel w =
  match refreshToken srv fuel w with
  | (Ok res, w1) => (Ok res, snd (startAutoRefresh w1))
  | (Throw e, w1) => (Throw e, w1)
  | (OutOfFuel, w1) => (OutOfFuel, w1)
  end.
Proof.
  intros H. unfold initAuth. unfold bind at 1. unfold getStoredRefresh, gets.
  rewrite H. cbn [negb]. unfold bind at 1.
  destruct (refreshToken srv fuel w) as [[res | e |] w1]; try reflexivity.
  destruct (startAutoRefresh_runs w1) as (R & _).
  unfold bind. now rewrite R.
Qed.

(** C6.  [initAuth()] throws "No autenticado" without touching the page
    when the storage slot holds no refresh credential.  Otherwise it is
    the renewal: when that succeeds the interval is started and the
    response returned; when it fails the error goes to the caller and
    nothing but the request log has moved -- no [logout()] is started and
    no navigation is made. *)
Theorem initAuth_resumes_session (n : nat) (w : World) :
  (present (storage w) = false ->
   initAuth srv (S (S n)) w = (Throw (Error "No autenticado"), w)) /\
  (present (storage w) = true ->
   match refreshToken srv (S (S n)) w with
   | (Ok res, w1) =>
       initAuth srv (S (S n)) w = (Ok res, snd (startAutoRefresh w1)) /\
       refreshInterval (snd (startAutoRefresh w1)) = Some (next_handle w1) /\
       In (mkTimer (next_handle w1) REFRESH_INTERVAL)
          (timers (snd (startAutoRefresh w1)))
   | (Throw e, w1) =>
       initAuth srv (S (S n)) w = (Throw e, w1) /\
       same_page w w1 /\ authState w1 = authState w /\ storage w1 = storage w
   | (OutOfFuel, _) => False
   end).
Proof.
  split; intros H.
  - unfold initAuth, bind, getStoredRefresh, gets. now rewrite H.
  - rewrite (initAuth_unfold _ _ H).
    destruct (refreshToken srv (S (S n)) w) as [[res | e |] w1] eqn:E.
    + destruct (startAutoRefresh_runs w1) as (R & I & T & _).
      repeat split; auto.
      rewrite T. apply in_or_app. right. now left.
    + split; [reflexivity |]. split.
      * now apply refreshToken_frame in E.
      * now apply refreshToken_failure_keeps in E.
    + now apply refreshToken_frame in E.
Qed.

(** *** Roles *)

(** C9, as the code has it.  [hasRole(r1, ..., rn)] never throws and
    leaves the page alone.  Its result is the boolean [true] exactly when
    [authState.user] is truthy and its [role] is one of the arguments;
    with a truthy user the result is a boolean; with no user loaded the
    result is the falsy [authState.user] itself ([null] on a fresh page
    and after a logout), not the boolean [false]. *)
Theorem hasRole_membership (roles : list value) (w : World) :
  let u := user (authState w) in
  exists v,
    hasRole roles w = (Ok v, w) /\
    (v = VBool true <->
     truthy u = true /\
     exists role, get_field u "role" = inr role /\ includes roles role = true) /\
    (truthy u = true -> exists b, v = VBool b) /\
    (truthy u = false -> v = u /\ truthy v = false).
Proof.
  intros u. unfold hasRole, bind, gets. fold u. cbv beta iota.
  destruct (truthy u) eqn:T.
  - assert (G : exists role, get_field u "role" = inr role)
      by (destruct u; try discriminate T; cbn; eauto).
    destruct G as [role G]. rewrite G. cbn [lift ret].
    exists (VBool (includes roles role)). repeat split; try easy.
    + injection H as H. eauto.
    + intros (_ & role' & [= <-] & ->). reflexivity.
    + eauto.
  - exists u. cbn [ret]. repeat split; try easy;
      rewrite H in T; discriminate T.
Qed.

(** *** What success leaves behind *)

Lemma refreshToken_ok (n : nat) (res : value) (w w' : World) :
  refreshToken srv (S (S n)) w = (Ok res, w') ->
  exists a r u w1,
    same_page w w1 /\
    get_field res "accessToken" = inr a /\
    get_field res "refreshToken" = inr r /\
    get_field res "user" = inr u /\
    w' = set_storage (if truthy r then Some (to_string r) else None)
           (set_authState (mkAuthState a r u) w1).
Proof.
  rewrite refreshToken_enough.
  unfold refresh_via_apiRequest. unfold bind at 1.
  unfold getStoredRefresh, gets.
  destruct (negb (present (storage w))); [discriminate |].
  unfold bind.
  destruct (apiRequest_world "/refresh" "POST"
              (VObj 0 [("refresh_token", of_stored (storage w))]) w)
    as [W _].
  destruct (apiRequest srv _ _ _ w) as [[v | e' |] w0]; cbn [snd] in W;
    try discriminate.
  intros E. apply refresh_adopt_ok in E as (a & r & u & Ea & Er & Eu & <- & ->).
  exists a, r, u, w0. subst w0. repeat split; auto.
Qed.

Lemma initAuth_ok (n : nat) (res : value) (w w' : World) :
  initAuth srv (S (S n)) w = (Ok res, w') ->
  exists w1,
    refreshToken srv (S (S n)) w = (Ok res, w1) /\
    w' = snd (startAutoRefresh w1).
Proof.
  destruct (present (storage w)) eqn:P.
  - rewrite (initAuth_unfold _ _ P).
    destruct (refreshToken srv (S (S n)) w) as [[v | e |] w1];
      try discriminate.
    intros H. injection H as <- <-. eauto.
  - unfold initAuth, bind, getStoredRefresh, gets. rewrite P. discriminate.
Qed.

Lemma stopAutoRefresh_runs (w : World) :
  let w' := snd (stopAutoRefresh w) in
  stopAutoRefresh w = (Ok tt, w') /\
  refreshInterval w' = None /\
  timers w' = timers_after_stop w /\
  authState w' = authState w /\ storage w' = storage w /\
  next_handle w' = next_handle w /\ requests w' = requests w /\
  navigations w' = navigations w /\ console w' = console w /\
  pending w' = pending w.
Proof.
  unfold stopAutoRefresh, clearInterval, timers_after_stop. monad.
  destruct (refreshInterval w) eqn:E; cbn; auto 12.
Qed.

Lemma timers_after_stop_stopped (w : World) :
  refreshInterval w = None -> timers_after_stop w = timers w.
Proof. unfold timers_after_stop. now intros ->. Qed.

Lemma timer_inv_stopped (w : World) :
  timer_inv w -> timers_after_stop w = [].
Proof.
  unfold timer_inv, timers_after_stop. intros ->.
  destruct (refreshInterval w); cbn; [| reflexivity].
  now rewrite Pos.eqb_refl.
Qed.

Lemma timers_after_stop_handle (w : World) (h : positive) :
  refreshInterval w = Some h ->
  ~ In h (map t_handle (timers_after_stop w)).
Proof.
  unfold timers_after_stop. intros -> H.
  apply in_map_iff in H as (t & <- & H).
  apply filter_In in H as [_ H]. now rewrite Pos.eqb_refl in H.
Qed.

(** *** Logout *)

Lemma logout_cleanup_runs (w : World) :
  logout_cleanup w =
  (Ok tt, set_navigations (navigations w ++ ["/index.html"])
            (set_storage None (set_authState no_auth w))).
Proof. reflexivity. Qed.

(** An awaited [logout()] is its first part followed by what the event
    loop runs when a suspended one is resumed. *)
Lemma logout_split (n : nat) (w : World) :
  logout srv (S n) w = bind (logout_begin srv) (logout_resume srv n) w.
Proof.
  unfold logout, logout_begin, logout_resume, stopAutoRefresh, clearInterval.
  cbn [apiCall]. monad. now destruct (refreshInterval w).
Qed.

Lemma logout_runs (n : nat) (w : World) :
  let remote := apiCall srv (S (S (S n))) "/logout" "POST" VNull
                  (snd (stopAutoRefresh w)) in
  let w' := snd (logout srv (S (S (S n))) w) in
  logout srv (S (S (S n))) w = (Ok tt, w') /\
  refreshInterval w' = None /\
  timers w' = timers_after_stop w /\
  next_handle w' = next_handle w /\
  authState w' = no_auth /\
  storage w' = None /\
  navigations w' = navigations w ++ ["/index.html"] /\
  console w' = console w ++
    match fst remote with
    | Throw e => [("Error al hacer logout:", e)]
    | _ => []
    end.
Proof.
  intros remote w'.
  destruct (stopAutoRefresh_runs w)
    as (S0 & I0 & T0 & _ & _ & H0 & _ & N0 & C0 & _).
  set (ws := snd (stopAutoRefresh w)) in *.
  destruct (apiCall_frame n "/logout" "POST" VNull ws) as (F & N & C & H & L).
  fold remote in F, N, C, H, L.
  assert (Q : refreshInterval (snd remote) = None /\
              timers (snd remote) = timers_after_stop w).
  { destruct L as [(A & B & _) | (A & B & _)].
    - now rewrite A, B.
    - rewrite A, B. split; [reflexivity |].
      rewrite <- T0. now apply timers_after_stop_stopped. }
  destruct Q as [QI QT].
  assert (E : logout srv (S (S (S n))) w =
    (Ok tt,
     set_navigations (navigations (snd remote) ++ ["/index.html"])
       (set_storage None (set_authState no_auth
          (set_console
             (console (snd remote) ++
                match fst remote with
                | Throw e => [("Error al hacer logout:", e)]
                | _ => []
                end)
             (snd remote)))))).
  { unfold logout. unfold bind at 1. rewrite S0.
    unfold try_finally, try_catch. unfold bind at 1. fold ws. fold remote.
    destruct remote as [[v | e |] w1]; cbn [fst snd] in *.
    - cbn [ret]. rewrite logout_cleanup_runs, app_nil_r. now destruct w1.
    - unfold console_error, modify. now rewrite logout_cleanup_runs.
    - now elim F. }
  subst w'. rewrite E. clear E S0. clearbody remote ws.
  cbn. repeat split; congruence.
Qed.

(** C3.  [logout()] returns normally whatever becomes of its request to
    the logout endpoint -- accepted, refused or never completed: an error
    of the remote call ends in the console, not at the caller.  When it
    returns the interval is cleared, the session is all [null], the
    storage slot is removed and the page has been sent to /index.html. *)
Theorem logout_always_cleans (n : nat) (w : World) :
  let w' := snd (logout srv (S (S (S n))) w) in
  logout srv (S (S (S n))) w = (Ok tt, w') /\
  refreshInterval w' = None /\
  (forall h, refreshInterval w = Some h -> ~ In h (map t_handle (timers w'))) /\
  (timer_inv w -> timers w' = []) /\
  authState w' = mkAuthState VNull VNull VNull /\
  storage w' = None /\
  navigations w' = navigations w ++ ["/index.html"].
Proof.
  destruct (logout_runs n w) as (R & I & T & _ & A & S0 & N & _).
  cbv zeta. rewrite T. repeat split; auto.
  - intros h. apply timers_after_stop_handle.
  - apply timer_inv_stopped.
Qed.

(** C10.  [setStoredRefresh] given a falsy token removes the storage slot
    instead of writing it.  So a login or a renewal whose response
    carries a falsy refresh token -- the empty string, say -- returns
    normally and yet leaves the slot empty, and [isAuthenticated()] is
    [false] right afterwards. *)
Theorem falsy_refresh_token_clears_store (n : nat) (w : World) :
  (forall token,
      truthy token = false ->
      setStoredRefresh token w = (Ok tt, set_storage None w)) /\
  (forall email password res w' r,
      login srv (S (S (S n))) email password w = (Ok res, w') ->
      get_field res "refreshToken" = inr r ->
      truthy r = false ->
      storage w' = None /\ isAuthenticated w' = (Ok false, w')) /\
  (forall res w' r,
      refreshToken srv (S (S n)) w = (Ok res, w') ->
      get_field res "refreshToken" = inr r ->
      truthy r = false ->
      storage w' = None /\ isAuthenticated w' = (Ok false, w')).
Proof.
  assert (A : forall w', storage w' = None ->
                storage w' = None /\ isAuthenticated w' = (Ok false, w')).
  { intros w' H. split; [exact H |].
    unfold isAuthenticated, bind, getStoredRefresh, gets. now rewrite H. }
  split; [| split].
  - intros token T. unfold setStoredRefresh. now rewrite T.
  - intros email password res w' r L G T. apply A.
    apply login_ok in L as (a & r' & u & w1 & _ & _ & G' & _ & ->).
    rewrite G in G'. injection G' as <-. rewrite T.
    match goal with
    | |- context [startAutoRefresh ?x] =>
        destruct (startAutoRefresh_runs x) as (_ & _ & _ & _ & -> & _)
    end.
    reflexivity.
  - intros res w' r L G T. apply A.
    apply refreshToken_ok in L as (a & r' & u & w1 & _ & _ & G' & _ & ->).
    rewrite G in G'. injection G' as <-. now rewrite T.
Qed.

(** C4, as the code has it.  A login, a renewal or an [initAuth()] that
    succeeds with a non-empty string as refresh token leaves that string
    both in [authState.refresh] and in the storage slot; a logout leaves
    [null] in the one and nothing in the other; a renewal or [initAuth()]
    that fails leaves both as they were, equal or not. *)
Theorem refresh_credential_mirrored (n : nat) (w : World) :
  (forall email password res w' s,
      login srv (S (S (S n))) email password w = (Ok res, w') ->
      get_field res "refreshToken" = inr (VStr s) -> s <> "" ->
      refresh (authState w') = VStr s /\ storage w' = Some s /\ mirrored w') /\
  (forall res w' s,
      refreshToken srv (S (S n)) w = (Ok res, w') ->
      get_field res "refreshToken" = inr (VStr s) -> s <> "" ->
      refresh (authState w') = VStr s /\ storage w' = Some s /\ mirrored w') /\
  (forall res w' s,
      initAuth srv (S (S n)) w = (Ok res, w') ->
      get_field res "refreshToken" = inr (VStr s) -> s <> "" ->
      refresh (authState w') = VStr s /\ storage w' = Some s /\ mirrored w') /\
  (forall e w',
      refreshToken srv (S (S n)) w = (Throw e, w') \/
      initAuth srv (S (S n)) w = (Throw e, w') ->
      refresh (authState w') = refresh (authState w) /\
      storage w' = storage w) /\
  (let w' := snd (logout srv (S (S (S n))) w) in
   refresh (authState w') = VNull /\ storage w' = None /\ mirrored w').
Proof.
  assert (T : forall s, s <> "" -> truthy (VStr s) = true).
  { intros s H. cbn. apply String.eqb_neq in H. now rewrite H. }
  assert (R : forall res w' s,
      refreshToken srv (S (S n)) w = (Ok res, w') ->
      get_field res "refreshToken" = inr (VStr s) -> s <> "" ->
      refresh (authState w') = VStr s /\ storage w' = Some s /\ mirrored w').
  { intros res w' s L G Hs.
    apply refreshToken_ok in L as (a & r' & u & w1 & _ & _ & G' & _ & ->).
    rewrite G in G'. injection G' as <-. rewrite (T s Hs).
    unfold mirrored. cbn. auto. }
  split; [| split; [exact R | split; [| split]]].
  - intros email password res w' s L G Hs.
    apply login_ok in L as (a & r' & u & w1 & _ & _ & G' & _ & ->).
    rewrite G in G'. injection G' as <-. rewrite (T s Hs).
    unfold mirrored.
    match goal with
    | |- context [startAutoRefresh ?x] =>
        destruct (startAutoRefresh_runs x) as (_ & _ & _ & -> & -> & _)
    end.
    cbn. auto.
  - intros res w' s L G Hs.
    apply initAuth_ok in L as (w1 & L & ->).
    destruct (R res w1 s L G Hs) as (A & B & C).
    unfold mirrored in *.
    destruct (startAutoRefresh_runs w1) as (_ & _ & _ & -> & -> & _). auto.
  - intros e w' [L | L].
    + apply refreshToken_failure_keeps in L as [-> ->]. auto.
    + destruct (present (storage w)) eqn:P.
      * rewrite (initAuth_unfold _ _ P) in L.
        destruct (refreshToken srv (S (S n)) w) as [[v | e' |] w1] eqn:E;
          try discriminate.
        injection L as <- <-.
        apply refreshToken_failure_keeps in E as [-> ->]. auto.
      * unfold initAuth, bind, getStoredRefresh, gets in L. rewrite P in L.
        injection L as <- <-. auto.
  - destruct (logout_runs n w) as (_ & _ & _ & _ & A & S0 & _).
    unfold mirrored. cbv zeta. now rewrite A, S0.
Qed.

Lemma hasRole_world (roles : list value) (w : World) :
  exists x, hasRole roles w = (x, w).
Proof.
  unfold hasRole, bind, gets. cbv beta iota.
  destruct (truthy (user (authState w))); [| unfold ret; eauto].
  destruct (user (authState w)); cbn; unfold ret; eauto.
Qed.

(** *** A login that fails *)

(** C2, as the code has it.  When the login request does not complete, or
    is answered with a status that is neither 2xx nor 401, [login] throws
    and only the request log has moved: the session, the storage slot,
    the interval and the suspended tasks are as before, and no navigation
    is made.  (A 401 enters the protocol of C1 instead.) *)
Theorem login_failure_keeps_session (n : nat) (email password : value)
    (w : World) :
  let rq := mkRequest "/login"
              (options_for (access (authState w)) "POST"
                 (VObj 0 [("email", email); ("password", password)])) in
  let w' := snd (login srv (S n) email password w) in
  (srv (requests w) rq = Rejected \/
   exists response,
     srv (requests w) rq = Responded response /\
     ok response = false /\ status response <> 401) ->
  (exists e, login srv (S n) email password w = (Throw e, w')) /\
  w' = sent rq w /\
  authState w' = authState w /\ storage w' = storage w /\
  refreshInterval w' = refreshInterval w /\ timers w' = timers w /\
  pending w' = pending w /\ navigations w' = navigations w.
Proof.
  intros rq w' H.
  assert (E : exists e, login srv (S n) email password w = (Throw e, sent rq w)).
  { unfold login. unfold bind at 1. rewrite apiCall_unfold. fold rq.
    destruct H as [-> | (response & -> & Hok & Hst)].
    - exists FetchError. reflexivity.
    - rewrite apiCall_settle_plain.
      2:{ apply Z.eqb_neq in Hst. now rewrite Hst. }
      unfold settle_plain. rewrite Hok. cbn [negb].
      destruct (fail_with_body_throws value response (sent rq w)) as [e ->].
      now exists e. }
  destruct E as [e E]. subst w'. rewrite E. cbn [snd].
  split; [now exists e |]. now repeat split.
Qed.

(** *** The renewal interval *)

Lemma started_or_not_inv (A : Type) (w : World) (x : outcome A) (w' : World) :
  timer_inv w -> logout_started_or_not w x w' -> timer_inv w'.
Proof.
  unfold timer_inv. intros I [(R & T & _) | (R & T & _)]; rewrite R, T.
  - exact I.
  - now apply timer_inv_stopped.
Qed.

Lemma timer_inv_ext (w w' : World) :
  refreshInterval w' = refreshInterval w -> timers w' = timers w ->
  timer_inv w -> timer_inv w'.
Proof. unfold timer_inv. now intros -> ->. Qed.

Lemma startAutoRefresh_inv (w : World) :
  timer_inv w ->
  timers (snd (startAutoRefresh w)) = [mkTimer (next_handle w) REFRESH_INTERVAL] /\
  timer_inv (snd (startAutoRefresh w)).
Proof.
  intros I. destruct (startAutoRefresh_runs w) as (_ & R & T & _).
  unfold timer_inv. rewrite R, T, (timer_inv_stopped _ I). now split.
Qed.

Lemma logout_unawaited_inv (w : World) :
  timer_inv w -> timer_inv (snd (logout_unawaited srv w)).
Proof.
  intros I.
  destruct (logout_unawaited_frame w) as (_ & _ & R & T & _).
  destruct (stopAutoRefresh_runs w) as (_ & _ & T' & _).
  unfold timer_inv. now rewrite R, T, T', (timer_inv_stopped _ I).
Qed.

Lemma login_world (n : nat) (email password : value) (w : World)
    (x : outcome value) (w1 : World) :
  apiCall srv (S (S (S n))) "/login" "POST"
    (VObj 0 [("email", email); ("password", password)]) w = (x, w1) ->
  let w' := snd (login srv (S (S (S n))) email password w) in
  w' = w1 \/
  exists a s, w' = snd (startAutoRefresh (set_storage s (set_authState a w1))).
Proof.
  intros E w'. subst w'. unfold login, bind. rewrite E.
  destruct x as [v | e |]; cbn [snd]; auto.
  unfold setStoredRefresh, lift, modify.
  destruct (get_field v "accessToken") as [e | a]; cbn [throw ret snd]; auto.
  destruct (get_field v "refreshToken") as [e | r]; cbn [throw ret snd]; auto.
  destruct (get_field v "user") as [e | u]; cbn [throw ret snd]; auto.
  right.
  destruct (truthy r); cbn [ret]; do 2 eexists;
    match goal with
    | |- context [startAutoRefresh ?x] =>
        destruct (startAutoRefresh_runs x) as [E' _]; rewrite E'
    end; reflexivity.
Qed.

Lemma tick_unfold (fuel : nat) (w : World) :
  tick srv fuel w =
  match refreshToken srv fuel w with
  | (Ok _, w1) => (Ok tt, w1)
  | (Throw e, w1) =>
      (Ok tt, snd (logout_unawaited srv
                     (snd (console_error "Error auto-refresh:" e w1))))
  | (OutOfFuel, w1) => (OutOfFuel, w1)
  end.
Proof.
  unfold tick, try_catch. unfold bind at 1.
  destruct (refreshToken srv fuel w) as [[v | e |] w1]; try reflexivity.
  unfold bind at 1. unfold console_error at 1. unfold modify at 1.
  now rewrite logout_unawaited_runs.
Qed.

Lemma logout_resume_inv (n : nat) (k : Task) (w : World) :
  timer_inv w -> timer_inv (snd (logout_resume srv (S (S n)) k w)).
Proof.
  intros I. unfold logout_resume, try_finally, try_catch. unfold bind at 1.
  destruct (apiCall_settle_frame (refreshToken srv (S (S n))) "/logout"
              (k_options k) (k_outcome k) w) as (_ & _ & _ & _ & L & _).
  { intros w0 x w0'. apply refreshToken_frame. }
  apply (started_or_not_inv _ _ _ _ I) in L.
  destruct (apiCall_settle srv _ _ _ _ w) as [[v | e |] w1]; cbn [fst snd] in *.
  - cbn [ret]. rewrite logout_cleanup_runs. exact L.
  - unfold console_error, modify. rewrite logout_cleanup_runs. exact L.
  - exact L.
Qed.

Lemma perform_timer_inv (n : nat) (c : call) (w : World) :
  timer_inv w -> timer_inv (perform srv (S (S (S n))) c w).
Proof.
  intros I. destruct c; cbn [perform]; try exact I.
  - (* register *)
    unfold register.
    destruct (apiCall_frame n "/register" "POST"
                (VObj 0 [("email", email); ("password", password);
                         ("company_name", company_name)]) w)
      as (_ & _ & _ & _ & L).
    exact (started_or_not_inv _ _ _ _ I L).
  - (* login *)
    destruct (apiCall_frame n "/login" "POST"
                (VObj 0 [("email", email); ("password", password)]) w)
      as (_ & _ & _ & _ & L).
    apply (started_or_not_inv _ _ _ _ I) in L.
    destruct (apiCall srv _ _ _ _ w) as [x w1] eqn:E. cbn [snd] in L.
    destruct (login_world n email password w x w1 E) as [-> | (a & s & ->)].
    + exact L.
    + now apply startAutoRefresh_inv.
  - (* logout *)
    destruct (logout_runs n w) as (_ & R & T & _).
    unfold timer_inv. now rewrite R, T, (timer_inv_stopped _ I).
  - (* refreshToken *)
    destruct (refreshToken srv (S (S (S n))) w) as [x w'] eqn:E.
    apply refreshToken_frame in E as ((R & T & _) & _).
    exact (timer_inv_ext _ _ R T I).
  - (* initAuth *)
    destruct (present (storage w)) eqn:P.
    + rewrite (initAuth_unfold _ _ P).
      destruct (refreshToken srv (S (S (S n))) w) as [x w'] eqn:E.
      apply refreshToken_frame in E as ((R & T & _) & _).
      pose proof (timer_inv_ext _ _ R T I) as I'.
      destruct x; cbn [snd]; auto. now apply startAutoRefresh_inv.
    + unfold initAuth, bind, getStoredRefresh, gets. now rewrite P.
  - (* requireAuth *)
    unfold requireAuth, bind, getStoredRefresh, gets.
    now destruct (negb (present (storage w))).
  - (* hasRole *)
    destruct (hasRole_world roles w) as [x ->]. exact I.
  - (* apiRequest *)
    now rewrite (proj1 (apiRequest_world _ _ _ _)).
  - (* the interval callback *)
    rewrite tick_unfold.
    destruct (refreshToken srv (S (S (S n))) w) as [x w'] eqn:E.
    apply refreshToken_frame in E as ((R & T & _) & _).
    pose proof (timer_inv_ext _ _ R T I) as I'.
    destruct x; cbn [snd]; auto. now apply logout_unawaited_inv.
  - (* a suspended logout goes on *)
    unfold resumeLogout, bind, gets.
    destruct (pending w) as [| k p]; [exact I |].
    unfold modify. now apply logout_resume_inv.
Qed.

Lemma reachable_timer_inv (w : World) : reachable srv w -> timer_inv w.
Proof.
  induction 1 as [stored | w c n _ IH].
  - reflexivity.
  - now apply perform_timer_inv.
Qed.

(** C7.  In every state the page can reach the browser runs at most one
    interval, the one [refreshInterval] names.  [startAutoRefresh()]
    clears the interval [refreshInterval] names before it sets the new
    one; [stopAutoRefresh()] run twice does the second time nothing; one
    run of the interval callback is a renewal, after which a [logout()]
    is started when the renewal threw, and nothing else happens when it
    did not. *)
Theorem single_renewal_timer :
  (forall w, reachable srv w -> timer_inv w /\ (length (timers w) <= 1)%nat) /\
  (forall w,
      let w' := snd (startAutoRefresh w) in
      timers w' =
        timers_after_stop w ++ [mkTimer (next_handle w) REFRESH_INTERVAL] /\
      (forall h, refreshInterval w = Some h ->
                 ~ In h (map t_handle (timers_after_stop w))) /\
      (timer_inv w -> timers w' = [mkTimer (next_handle w) REFRESH_INTERVAL])) /\
  (forall w,
      stopAutoRefresh (snd (stopAutoRefresh w)) =
      (Ok tt, snd (stopAutoRefresh w))) /\
  (forall n w,
      let w' := snd (tick srv (S (S n)) w) in
      tick srv (S (S n)) w = (Ok tt, w') /\
      match refreshToken srv (S (S n)) w with
      | (Ok _, w1) => w' = w1 /\ pending w' = pending w
      | (Throw e, w1) =>
          w' = snd (logout_unawaited srv
                      (snd (console_error "Error auto-refresh:" e w1))) /\
          exists k, pending w' = pending w ++ [k]
      | (OutOfFuel, _) => False
      end).
Proof.
  split; [| split; [| split]].
  - intros w R. apply reachable_timer_inv in R. split; [exact R |].
    rewrite R. destruct (refreshInterval w); cbn; lia.
  - intros w w'. destruct (startAutoRefresh_runs w) as (_ & _ & T & _).
    split; [exact T |]. split.
    + intros h. apply timers_after_stop_handle.
    + intros I. now apply startAutoRefresh_inv.
  - intros w. destruct (stopAutoRefresh_runs w) as (_ & R & _).
    unfold stopAutoRefresh at 1. unfold bind, gets. now rewrite R.
  - intros n w w'. subst w'. rewrite tick_unfold.
    destruct (refreshToken srv (S (S n)) w) as [[v | e |] w1] eqn:E;
      apply refreshToken_frame in E as ((_ & _ & _ & _ & _ & P) & F & _).
    + cbn [snd]. auto.
    + cbn [snd]. repeat split.
      destruct (logout_unawaited_frame
                  (snd (console_error "Error auto-refresh:" e w1)))
        as (_ & _ & _ & _ & _ & _ & _ & [k Q] & _).
      exists k. rewrite Q. cbn. now rewrite P.
    + now elim F.
Qed.

End Properties.

(** * The scenarios, run *)

Example login_scenario :
  let w := snd (login friendly_server 3 (VStr "a@x.com") (VStr "pw")
                  (fresh_page None)) in
  fst (hasRole [VStr "admin"] w) = Ok (VBool true) /\
  fst (hasRole [VStr "viewer"] w) = Ok (VBool false) /\
  storage w = Some "R1".
Proof. vm_compute. auto. Qed.

Example initAuth_scenario :
  let w := snd (initAuth friendly_server 2 (fresh_page (Some "R1"))) in
  storage w = Some "R2" /\ timers w = [mkTimer 1%positive REFRESH_INTERVAL].
Proof. vm_compute. auto. Qed.

Example logout_offline_scenario :
  let w := snd (logout offline_server 3 session_page) in
  authState w = no_auth /\ storage w = None /\ navigations w = ["/index.html"].
Proof. vm_compute. auto. Qed.

(** ** C2 *)

Lemma login_failure_keeps_session_witness :
  let w' := snd (login failing_server 1 (VStr "a@x.com") (VStr "pw")
                   session_page) in
  authState w' = authState session_page /\
  storage w' = Some "R1" /\
  refreshInterval w' = Some 1%positive.
Proof.
  intros w'.
  destruct (login_failure_keeps_session failing_server 0
              (VStr "a@x.com") (VStr "pw") session_page)
    as (_ & _ & A & S & R & _).
  - right. exists (mkResponse 500 (Some (VObj 3 [("message", VStr "boom")]))).
    repeat split. discriminate.
  - fold w' in A, S, R. now rewrite A, S, R.
Defined.

(** With a session in place, a login answered 401 renews the session,
    is answered 401 again and ends in a logout: the session, the storage
    slot and the interval have all changed when the error reaches the
    caller. *)
Lemma login_401_counterexample :
  let w := session_page in
  let rq := mkRequest "/login"
              (options_for (access (authState w)) "POST"
                 (VObj 0 [("email", VStr "a@x.com"); ("password", VStr "bad")])) in
  let w' := snd (login rejecting_server 3 (VStr "a@x.com") (VStr "bad") w) in
  (exists body, rejecting_server (requests w) rq =
                Responded (mkResponse 401 body)) /\
  fst (login rejecting_server 3 (VStr "a@x.com") (VStr "bad") w) =
    Throw (Error "Retry failed") /\
  authState w' <> authState w /\
  storage w' <> storage w /\
  refreshInterval w' <> refreshInterval w.
Proof.
  vm_compute. repeat split; eauto; discriminate.
Qed.

(** ** C3 *)

Lemma logout_always_cleans_witness :
  let w' := snd (logout offline_server 3 session_page) in
  refreshInterval session_page = Some 1%positive /\
  timer_inv session_page /\
  ~ In 1%positive (map t_handle (timers w')) /\
  timers w' = [].
Proof.
  intros w'.
  destruct (logout_always_cleans offline_server 0 session_page)
    as (_ & _ & H & T & _).
  fold w' in H, T.
  assert (R : refreshInterval session_page = Some 1%positive) by reflexivity.
  assert (I : timer_inv session_page) by reflexivity.
  split; [exact R |]. split; [exact I |].
  split; [exact (H _ R) | exact (T I)].
Defined.

(** ** C4 *)

Lemma refresh_credential_mirrored_witness :
  let w' := snd (login friendly_server 3 (VStr "a@x.com") (VStr "pw")
                   (fresh_page None)) in
  refresh (authState w') = VStr "R1" /\ storage w' = Some "R1" /\ mirrored w'.
Proof.
  intros w'.
  destruct (refresh_credential_mirrored friendly_server 0 (fresh_page None))
    as [H _].
  apply (H (VStr "a@x.com") (VStr "pw") (session_body "A1" "R1") w' "R1").
  - vm_compute. reflexivity.
  - reflexivity.
  - discriminate.
Defined.

(** After a reload the slot holds "R1" and the session is empty; when the
    network is down [initAuth()] completes by throwing and leaves them so.
    And a login that succeeds with the empty string as refresh token
    leaves the empty string in the session and no slot at all. *)
Lemma refresh_credential_mismatch_counterexample :
  let failed := initAuth offline_server 2 (fresh_page (Some "R1")) in
  let done := login empty_token_server 3 (VStr "a@x.com") (VStr "pw")
                (fresh_page None) in
  (fst failed = Throw FetchError /\
   refresh (authState (snd failed)) = VNull /\
   storage (snd failed) = Some "R1" /\
   ~ mirrored (snd failed)) /\
  (fst done = Ok (session_body "A1" "") /\
   refresh (authState (snd done)) = VStr "" /\
   storage (snd done) = None /\
   ~ mirrored (snd done)).
Proof.
  vm_compute. repeat split; discriminate.
Qed.

(** ** C5 *)

Lemma refreshToken_without_credential_witness :
  present (storage (fresh_page None)) = false /\
  refreshToken friendly_server 1 (fresh_page None) =
  (Throw (Error "No hay refresh token"), fresh_page None).
Proof.
  split; [reflexivity |].
  apply (refreshToken_without_credential friendly_server 0 (fresh_page None)).
  reflexivity.
Defined.

(** ** C6 *)

Lemma initAuth_resumes_session_witness :
  let run := initAuth friendly_server 2 (fresh_page (Some "R1")) in
  (present (storage (fresh_page None)) = false /\
   initAuth friendly_server 2 (fresh_page None) =
   (Throw (Error "No autenticado"), fresh_page None)) /\
  (present (storage (fresh_page (Some "R1"))) = true /\
   fst run = Ok (session_body "A2" "R2") /\
   refreshInterval (snd run) = Some 1%positive).
Proof.
  intros run. split; (split; [reflexivity |]).
  - apply (initAuth_resumes_session friendly_server 0 (fresh_page None)).
    reflexivity.
  - destruct (initAuth_resumes_session friendly_server 0
                (fresh_page (Some "R1"))) as [_ H].
    specialize (H eq_refl). fold run in H. clearbody run.
    vm_compute in H. destruct H as (-> & _ & _). vm_compute. auto.
Defined.

(** ** C7 *)

Lemma single_renewal_timer_witness :
  let w := perform friendly_server 3 (Login (VStr "a@x.com") (VStr "pw"))
             (fresh_page None) in
  reachable friendly_server w /\ (length (timers w) <= 1)%nat.
Proof.
  intros w.
  assert (R : reachable friendly_server w)
    by (apply reach_step, reach_load).
  split; [exact R |].
  exact (proj2 (proj1 (single_renewal_timer friendly_server) w R)).
Defined.

(** ** C9 *)

Lemma hasRole_membership_witness :
  fst (hasRole [VStr "admin"] session_page) = Ok (VBool true).
Proof.
  destruct (hasRole_membership [VStr "admin"] session_page)
    as (v & E & [_ I] & _).
  rewrite E. cbn [fst]. f_equal. apply I.
  split; [reflexivity |]. exists (VStr "admin"). now split.
Defined.

(** On a page where no user is loaded [hasRole] answers [null]. *)
Lemma hasRole_null_counterexample :
  hasRole [VStr "admin"] (fresh_page None) = (Ok VNull, fresh_page None) /\
  VNull <> VBool false.
Proof. split; [reflexivity | discriminate]. Qed.

(** ** C10 *)

Lemma falsy_refresh_token_clears_store_witness :
  let run := login empty_token_server 3 (VStr "a@x.com") (VStr "pw")
               (fresh_page None) in
  fst run = Ok (session_body "A1" "") /\
  storage (snd run) = None /\
  isAuthenticated (snd run) = (Ok false, snd run).
Proof.
  intros run. split; [reflexivity |].
  destruct (falsy_refresh_token_clears_store empty_token_server 0
              (fresh_page None)) as (_ & H & _).
  apply (H (VStr "a@x.com") (VStr "pw") (session_body "A1" "") (snd run)
           (VStr "")); reflexivity.
Defined.

(** * Further properties of auth.js *)

Section Further.

Variable srv : Server.

(** ** The two request functions *)

Lemma apiCall_plain_unless_401 (n : nat) (e m : string) (b : value)
    (w : World) :
  let rq := mkRequest e (options_for (access (authState w)) m b) in
  (forall response,
      srv (requests w) rq = Responded response -> status response <> 401) ->
  apiCall srv (S n) e m b w = apiRequest srv e m b w.
Proof.
  intros rq H. rewrite apiCall_unfold, apiRequest_unfold. fold rq.
  destruct (srv (requests w) rq) as [| response] eqn:E; [reflexivity |].
  rewrite apiCall_settle_plain; [reflexivity |].
  specialize (H response eq_refl). apply Z.eqb_neq in H. now rewrite H.
Qed.

Lemma apiRequest_not_ok (e m : string) (b : value) (w : World)
    (response : Response) :
  let rq := mkRequest e (options_for (access (authState w)) m b) in
  srv (requests w) rq = Responded response ->
  ok response = false ->
  apiRequest srv e m b w = fail_with_body response (sent rq w).
Proof.
  intros rq H Hok. rewrite apiRequest_unfold. fold rq. rewrite H.
  unfold bind, await, ret, settle_plain. now rewrite Hok.
Qed.

(** X1.  What [apiRequest] throws for a response that is not 2xx: with a
    body that does not parse, "Error desconocido"; with a parsed body,
    its [error] when that is truthy, else its [message] when that is
    truthy, else "Error en la petición"; and a [TypeError] when the parsed
    body is [null], of which no property can be read.  Only the request
    log has moved. *)
Theorem apiRequest_error_message (e m : string) (b : value) (w : World)
    (response : Response) :
  let rq := mkRequest e (options_for (access (authState w)) m b) in
  let run := apiRequest srv e m b w in
  srv (requests w) rq = Responded response ->
  ok response = false ->
  snd run = sent rq w /\
  match json response with
  | None => fst run = Throw (Error "Error desconocido")
  | Some body =>
      match get_field body "error", get_field body "message" with
      | inr er, inr ms =>
          (truthy er = true -> fst run = Throw (Error (to_string er))) /\
          (truthy er = false -> truthy ms = true ->
           fst run = Throw (Error (to_string ms))) /\
          (truthy er = false -> truthy ms = false ->
           fst run = Throw (Error "Error en la petición"))
      | _, _ => fst run = Throw TypeError
      end
  end.
Proof.
  intros rq run H Hok. subst run.
  rewrite (apiRequest_not_ok e m b w response H Hok). fold rq.
  split.
  { destruct (fail_with_body_throws value response (sent rq w)) as [x ->].
    reflexivity. }
  unfold fail_with_body.
  destruct (json response) as [body |]; [| reflexivity].
  destruct body as [| | c | s | i fs]; try reflexivity;
    cbn [get_field]; unfold bind, lift, ret, throw;
    cbv beta iota.
  - cbn. repeat split; intros; try discriminate; reflexivity.
  - cbn. repeat split; intros; try discriminate; reflexivity.
  - destruct (truthy (lookup_field "error" fs)) eqn:Te.
    + repeat split; intros; try discriminate; reflexivity.
    + unfold js_or.
      destruct (truthy (lookup_field "message" fs)) eqn:Tm;
        repeat split; intros; try discriminate; reflexivity.
Qed.

(** X2.  [apiCall] and [apiRequest] part ways only on a 401: when the
    request is not answered 401 -- it is rejected, or answered with any
    other status -- the two return the same result and leave the same
    page. *)
Theorem apiCall_differs_only_on_401 (n : nat) (e m : string) (b : value)
    (w : World) :
  let rq := mkRequest e (options_for (access (authState w)) m b) in
  (forall response,
      srv (requests w) rq = Responded response -> status response <> 401) ->
  apiCall srv (S n) e m b w = apiRequest srv e m b w.
Proof. apply apiCall_plain_unless_401. Qed.

(** ** Around a login *)

Lemma truthy_nonempty (s : string) : s <> "" -> truthy (VStr s) = true.
Proof. intros H. cbn. apply String.eqb_neq in H. now rewrite H. Qed.

Lemma login_session (n : nat) (email password res : value) (w w' : World) :
  login srv (S (S (S n))) email password w = (Ok res, w') ->
  exists a r u w1,
    apiCall srv (S (S (S n))) "/login" "POST"
      (VObj 0 [("email", email); ("password", password)]) w = (Ok res, w1) /\
    get_field res "accessToken" = inr a /\
    get_field res "refreshToken" = inr r /\
    get_field res "user" = inr u /\
    authState w' = mkAuthState a r u /\
    storage w' = (if truthy r then Some (to_string r) else None) /\
    refreshInterval w' = Some (next_handle w1) /\
    timers w' =
      timers_after_stop w1 ++ [mkTimer (next_handle w1) REFRESH_INTERVAL] /\
    navigations w' = navigations w1 /\ pending w' = pending w1 /\
    requests w' = requests w1.
Proof.
  intros L. apply login_ok in L as (a & r & u & w1 & E & Ga & Gr & Gu & ->).
  exists a, r, u, w1.
  match goal with
  | |- context [startAutoRefresh ?x] =>
      destruct (startAutoRefresh_runs x)
        as (_ & I & T & A & S0 & Q & N & _ & P)
  end.
  rewrite I, T, A, S0, N, P, Q. cbn. now repeat split.
Qed.

(** X3.  After a login that returned a non-empty string as access token,
    every request [apiRequest] sends carries that token as its bearer:
    its headers are Content-Type and "Authorization: Bearer <token>", its
    method the one asked for, and its body the one given when that is
    truthy. *)
Theorem login_then_requests_carry_bearer (n : nat) (email password res : value)
    (w w' : World) (a : string) :
  login srv (S (S (S n))) email password w = (Ok res, w') ->
  get_field res "accessToken" = inr (VStr a) ->
  a <> "" ->
  forall e m b,
    requests (snd (apiRequest srv e m b w')) =
    requests w' ++
      [mkRequest e
         (mkOptions m
            [("Content-Type", "application/json");
             ("Authorization", ("Bearer " ++ a)%string)]
            (if truthy b then Some b else None))].
Proof.
  intros L G Ha e m b.
  apply login_session in L
    as (a' & r & u & w1 & _ & Ga & _ & _ & A & _).
  rewrite G in Ga. injection Ga as <-.
  rewrite (proj1 (apiRequest_world srv e m b w')), A.
  cbn [sent set_requests requests access]. unfold options_for.
  now rewrite (truthy_nonempty a Ha).
Qed.

(** X4.  What a login that returns leaves behind: the session is the
    three fields of the response, which [getUser] and [getAccessToken]
    hand out; the interval runs with the period of 25,200,000 ms, as the
    only one when the page ran at most the one [refreshInterval] named
    before; and with a non-empty string as refresh token
    [isAuthenticated] is [true] and [requireAuth] does nothing. *)
Theorem login_establishes_session (n : nat) (email password res : value)
    (w w' : World) :
  login srv (S (S (S n))) email password w = (Ok res, w') ->
  exists a r u h,
    get_field res "accessToken" = inr a /\
    get_field res "refreshToken" = inr r /\
    get_field res "user" = inr u /\
    authState w' = mkAuthState a r u /\
    getUser w' = (Ok u, w') /\
    getAccessToken w' = (Ok a, w') /\
    refreshInterval w' = Some h /\
    In (mkTimer h REFRESH_INTERVAL) (timers w') /\
    (timer_inv w -> timers w' = [mkTimer h REFRESH_INTERVAL]) /\
    (forall s, r = VStr s -> s <> "" ->
       isAuthenticated w' = (Ok true, w') /\ requireAuth w' = (Ok tt, w')).
Proof.
  intros L.
  apply login_session in L
    as (a & r & u & w1 & E & Ga & Gr & Gu & A & S0 & I & T & _).
  exists a, r, u, (next_handle w1).
  repeat split; auto.
  - unfold getUser, gets. now rewrite A.
  - unfold getAccessToken, gets. now rewrite A.
  - rewrite T. apply in_or_app. right. now left.
  - intros Inv. rewrite T.
    destruct (apiCall_frame srv n "/login" "POST"
                (VObj 0 [("email", email); ("password", password)]) w)
      as (_ & _ & _ & _ & F).
    rewrite E in F. cbn [fst snd] in F.
    apply (started_or_not_inv _ _ _ _ Inv) in F.
    now rewrite (timer_inv_stopped _ F).
  - unfold isAuthenticated, bind, getStoredRefresh, gets.
    rewrite S0. subst r. rewrite (truthy_nonempty s H0). cbn [to_string present].
    apply String.eqb_neq in H0. now rewrite H0.
  - unfold requireAuth, bind, getStoredRefresh, gets.
    rewrite S0. subst r. rewrite (truthy_nonempty s H0). cbn [to_string present].
    apply String.eqb_neq in H0. now rewrite H0.
Qed.

(** ** Around a logout *)

(** X5.  Once [logout] has returned nothing of the session is left for
    the other functions: [isAuthenticated] is [false], [getUser],
    [getAccessToken] and [hasRole] return [null], [requireAuth] sends the
    page to /index.html, a renewal and an [initAuth] throw at once, and a
    request that is sent carries the Content-Type header alone. *)
Theorem logout_leaves_nothing (n : nat) (w : World) :
  let w' := snd (logout srv (S (S (S n))) w) in
  isAuthenticated w' = (Ok false, w') /\
  getUser w' = (Ok VNull, w') /\
  getAccessToken w' = (Ok VNull, w') /\
  (forall roles, hasRole roles w' = (Ok VNull, w')) /\
  navigations (snd (requireAuth w')) = navigations w' ++ ["/index.html"] /\
  (forall k, refreshToken srv (S k) w' =
             (Throw (Error "No hay refresh token"), w')) /\
  (forall k, initAuth srv k w' = (Throw (Error "No autenticado"), w')) /\
  (forall e m b,
      requests (snd (apiRequest srv e m b w')) =
      requests w' ++
        [mkRequest e
           (mkOptions m [("Content-Type", "application/json")]
              (if truthy b then Some b else None))]).
Proof.
  intros w'.
  destruct (logout_runs srv n w) as (_ & _ & _ & _ & A & S0 & _).
  fold w' in A, S0. clearbody w'.
  repeat split.
  - unfold isAuthenticated, bind, getStoredRefresh, gets. now rewrite S0.
  - unfold getUser, gets. now rewrite A.
  - unfold getAccessToken, gets. now rewrite A.
  - intros roles. unfold hasRole, bind, gets. now rewrite A.
  - unfold requireAuth, bind, getStoredRefresh, gets. now rewrite S0.
  - intros k. cbn [refreshToken]. unfold bind, getStoredRefresh, gets.
    now rewrite S0.
  - intros k. unfold initAuth, bind, getStoredRefresh, gets. now rewrite S0.
  - intros e m b. rewrite (proj1 (apiRequest_world srv e m b w')), A.
    reflexivity.
Qed.

(** X6.  The request [logout] makes is the first thing it sends, a POST
    to /logout without body that still carries the bearer of the session
    being closed: the session is cleared only after it. *)
Theorem logout_request_carries_session (n : nat) (w : World) :
  exists l,
    requests (snd (logout srv (S (S (S n))) w)) =
    requests w ++
      mkRequest "/logout" (options_for (access (authState w)) "POST" VNull)
      :: l.
Proof.
  rewrite logout_split.
  unfold bind at 1.
  assert (B : exists k,
    logout_begin srv w = (Ok k, sent (mkRequest "/logout"
      (options_for (access (authState w)) "POST" VNull))
      (snd (stopAutoRefresh w))) /\ 
    k_options k = options_for (access (authState w)) "POST" VNull).
  { unfold logout_begin, stopAutoRefresh, clearInterval, bind, gets, modify,
      build_options, fetch, ret.
    destruct (refreshInterval w); cbn; eauto. }
  destruct B as (k & -> & K).
  set (w0 := sent _ _).
  assert (Q : requests w0 = requests w ++
     [mkRequest "/logout" (options_for (access (authState w)) "POST" VNull)]).
  { subst w0. cbn [sent set_requests requests].
    destruct (stopAutoRefresh_runs w) as (_ & _ & _ & _ & _ & _ & -> & _).
    reflexivity. }
  unfold logout_resume, try_finally, try_catch. unfold bind at 1.
  destruct (apiCall_settle_frame srv (refreshToken srv (S (S n))) "/logout"
              (k_options k) (k_outcome k) w0)
    as (F & _ & _ & _ & _ & l & R & _).
  { intros x0 x x0'. apply refreshToken_frame. }
  exists l.
  destruct (apiCall_settle srv _ _ _ _ w0) as [[v | e |] w1];
    cbn [fst snd] in *.
  - cbn [ret]. rewrite logout_cleanup_runs. cbn.
    now rewrite R, Q, <- app_assoc.
  - unfold console_error, modify. rewrite logout_cleanup_runs. cbn.
    now rewrite R, Q, <- app_assoc.
  - now elim F.
Qed.

(** ** Renewal, again *)

Lemma refresh_adopt_requests (res : value) (w : World) :
  requests (snd (refresh_adopt res w)) = requests w.
Proof.
  destruct (refresh_adopt res w) as [[v | e |] w'] eqn:E; cbn [snd].
  - now apply refresh_adopt_ok in E as (a & r & u & _ & _ & _ & _ & ->).
  - now apply refresh_adopt_throw in E as ->.
  - exfalso. apply (refresh_adopt_fuel res w). now rewrite E.
Qed.

Lemma refreshToken_request (n : nat) (w : World) :
  present (storage w) = true ->
  requests (snd (refreshToken srv (S (S n)) w)) =
  requests w ++
    [mkRequest "/refresh"
       (options_for (access (authState w)) "POST"
          (VObj 0 [("refresh_token", of_stored (storage w))]))].
Proof.
  intros P. rewrite refreshToken_enough.
  unfold refresh_via_apiRequest. unfold bind at 1.
  unfold getStoredRefresh, gets. rewrite P. cbn [negb]. unfold bind.
  destruct (apiRequest_world srv "/refresh" "POST"
              (VObj 0 [("refresh_token", of_stored (storage w))]) w)
    as [W _].
  destruct (apiRequest srv _ _ _ w) as [[v | e |] w0]; cbn [snd] in *;
    subst w0; try reflexivity.
  now rewrite refresh_adopt_requests.
Qed.

(** X7.  With a refresh credential stored, a renewal sends exactly one
    request: a POST to /refresh whose body is [{refresh_token: <the
    stored string>}].  And the credential rotates: after a renewal that
    returned a non-empty string as refresh token, the next renewal sends
    that string and no longer the old one. *)
Theorem refreshToken_rotates (n : nat) (w : World) :
  present (storage w) = true ->
  let run := refreshToken srv (S (S n)) w in
  requests (snd run) =
    requests w ++
      [mkRequest "/refresh"
         (options_for (access (authState w)) "POST"
            (VObj 0 [("refresh_token", of_stored (storage w))]))] /\
  (forall res s,
      fst run = Ok res ->
      get_field res "refreshToken" = inr (VStr s) ->
      s <> "" ->
      requests (snd (refreshToken srv (S (S n)) (snd run))) =
      requests (snd run) ++
        [mkRequest "/refresh"
           (options_for (access (authState (snd run))) "POST"
              (VObj 0 [("refresh_token", VStr s)]))]).
Proof.
  intros P run. split; [now apply refreshToken_request |].
  intros res s R G Hs.
  destruct run as [x w'] eqn:E. cbn [fst snd] in *. subst x.
  assert (S0 : storage w' = Some s).
  { apply refreshToken_ok in E as (a & r & u & w1 & _ & _ & G' & _ & ->).
    rewrite G in G'. injection G' as <-.
    now rewrite (truthy_nonempty s Hs). }
  rewrite refreshToken_request; rewrite S0; [reflexivity |].
  cbn. apply String.eqb_neq in Hs. now rewrite Hs.
Qed.

(** ** Answers that are 2xx but not what [login] expects *)

Lemma ok_not_401 (response : Response) :
  ok response = true -> (status response =? 401) = false.
Proof.
  unfold ok. intros H. apply andb_true_iff in H as [_ H].
  apply Z.leb_le in H. apply Z.eqb_neq. lia.
Qed.

Lemma apiCall_ok_response (n : nat) (e m : string) (b : value) (w : World)
    (response : Response) :
  let rq := mkRequest e (options_for (access (authState w)) m b) in
  srv (requests w) rq = Responded response ->
  ok response = true ->
  apiCall srv (S n) e m b w = response_json response (sent rq w).
Proof.
  intros rq H Hok. rewrite apiCall_unfold. fold rq. rewrite H.
  rewrite apiCall_settle_plain by now rewrite (ok_not_401 _ Hok).
  unfold settle_plain. now rewrite Hok.
Qed.

(** X8.  A login whose request is answered 2xx with something else than
    an object.  A body that does not parse makes [login] throw a
    [SyntaxError], the body [null] a [TypeError], and in both cases only
    the request log has moved.  A body that is a JSON string or boolean
    is taken for a success: [login] returns it, the session is all
    [undefined], the storage slot is removed and the interval is
    started. *)
Theorem login_unexpected_body (n : nat) (email password : value) (w : World)
    (response : Response) :
  let rq := mkRequest "/login"
              (options_for (access (authState w)) "POST"
                 (VObj 0 [("email", email); ("password", password)])) in
  let run := login srv (S n) email password w in
  srv (requests w) rq = Responded response ->
  ok response = true ->
  (json response = None -> run = (Throw SyntaxError, sent rq w)) /\
  (json response = Some VNull -> run = (Throw TypeError, sent rq w)) /\
  (forall body,
      json response = Some body ->
      (exists s, body = VStr s) \/ (exists b, body = VBool b) ->
      fst run = Ok body /\
      authState (snd run) = mkAuthState VUndefined VUndefined VUndefined /\
      storage (snd run) = None /\
      refreshInterval (snd run) = Some (next_handle w)).
Proof.
  intros rq run H Hok.
  assert (L : run = bind (response_json response) (fun res =>
                a <- lift (get_field res "accessToken") ;;
                r <- lift (get_field res "refreshToken") ;;
                u <- lift (get_field res "user") ;;
                modify (set_authState (mkAuthState a r u)) ;;
                r' <- lift (get_field res "refreshToken") ;;
                setStoredRefresh r' ;;
                startAutoRefresh ;;
                ret res) (sent rq w)).
  { subst run. unfold login. unfold bind at 1.
    rewrite (apiCall_ok_response n "/login" "POST" _ w response H Hok).
    reflexivity. }
  rewrite L. clear L. clearbody run. unfold response_json.
  split; [| split].
  - now intros ->.
  - now intros ->.
  - intros body -> B.
    assert (G : forall k, get_field body k = inr VUndefined)
      by (destruct B as [[s ->] | [b ->]]; reflexivity).
    set (x := set_storage None
                (set_authState
                   (mkAuthState VUndefined VUndefined VUndefined) (sent rq w))).
    destruct (startAutoRefresh_runs x) as (E & I & _ & A & S0 & _).
    assert (L : bind (ret body) (fun res =>
                a <- lift (get_field res "accessToken") ;;
                r <- lift (get_field res "refreshToken") ;;
                u <- lift (get_field res "user") ;;
                modify (set_authState (mkAuthState a r u)) ;;
                r' <- lift (get_field res "refreshToken") ;;
                setStoredRefresh r' ;;
                startAutoRefresh ;;
                ret res) (sent rq w) = (Ok body, snd (startAutoRefresh x))).
    { unfold bind, ret at 1. unfold lift, setStoredRefresh, modify.
      rewrite !G. cbn [ret truthy]. fold x. now rewrite E. }
    rewrite L. cbn [fst snd]. rewrite I, A, S0. now repeat split.
Qed.

(** ** Registration *)

(** X9.  [register] posts the three fields to /register and does not log
    in: when the answer is not a 401, nothing but the request log has
    moved -- the session, the storage slot and the interval are as they
    were -- and a 2xx answer is returned as parsed. *)
Theorem register_does_not_log_in (n : nat) (email password company : value)
    (w : World) :
  let rq := mkRequest "/register"
              (options_for (access (authState w)) "POST"
                 (VObj 0 [("email", email); ("password", password);
                          ("company_name", company)])) in
  let run := register srv (S n) email password company w in
  (forall response,
      srv (requests w) rq = Responded response -> status response <> 401) ->
  snd run = sent rq w /\
  (forall response body,
      srv (requests w) rq = Responded response ->
      ok response = true -> json response = Some body ->
      fst run = Ok body).
Proof.
  intros rq run H. subst run. unfold register.
  rewrite apiCall_plain_unless_401 by exact H.
  split.
  - apply apiRequest_world.
  - intros response body R Hok J.
    rewrite apiRequest_unfold. change (mkRequest "/register" _) with rq.
    rewrite R. unfold bind, await, ret, settle_plain, response_json.
    now rewrite Hok, J.
Qed.

(** ** A [logout()] nobody awaits *)

Lemma logout_resume_runs (n : nat) (k : Task) (w : World) :
  let w' := snd (logout_resume srv (S (S n)) k w) in
  logout_resume srv (S (S n)) k w = (Ok tt, w') /\
  authState w' = no_auth /\
  storage w' = None /\
  navigations w' = navigations w ++ ["/index.html"] /\
  (refreshInterval w = None ->
   refreshInterval w' = None /\ timers w' = timers w).
Proof.
  intros w'.
  set (remote := apiCall_settle srv (refreshToken srv (S (S n))) "/logout"
                   (k_options k) (k_outcome k) w).
  destruct (apiCall_settle_frame srv (refreshToken srv (S (S n))) "/logout"
              (k_options k) (k_outcome k) w) as (F & N & _ & _ & L & _).
  { intros x0 x x0'. apply refreshToken_frame. }
  fold remote in F, N, L.
  assert (E : logout_resume srv (S (S n)) k w =
    (Ok tt,
     set_navigations (navigations (snd remote) ++ ["/index.html"])
       (set_storage None (set_authState no_auth
          (set_console
             (console (snd remote) ++
                match fst remote with
                | Throw e => [("Error al hacer logout:", e)]
                | _ => []
                end)
             (snd remote)))))).
  { unfold logout_resume, try_finally, try_catch. unfold bind at 1.
    fold remote.
    destruct remote as [[v | e |] w1]; cbn [fst snd] in *.
    - cbn [ret]. rewrite logout_cleanup_runs, app_nil_r. now destruct w1.
    - unfold console_error, modify. now rewrite logout_cleanup_runs.
    - now elim F. }
  subst w'. rewrite E. clear E. clearbody remote.
  cbn. repeat split; try congruence.
  - destruct L as [(A & _) | (A & _)]; congruence.
  - destruct L as [(_ & B & _) | (_ & B & _)]; [exact B |].
    rewrite B. now apply timers_after_stop_stopped.
Qed.

(** X10.  A [logout()] that is called without [await] -- as [apiCall]
    does after a failed retry and the interval callback after a failed
    renewal -- has, when its caller goes on, stopped the interval and
    sent its request, and nothing more: the session and the storage slot
    are still in place.  They are cleared, and the page is sent to
    /index.html, when that request has settled and the logout is
    resumed. *)
Theorem unawaited_logout_completes_later (n : nat) (w : World) :
  pending w = [] ->
  let w1 := snd (logout_unawaited srv w) in
  let w2 := snd (resumeLogout srv (S (S n)) w1) in
  (authState w1 = authState w /\ storage w1 = storage w /\
   navigations w1 = navigations w /\ refreshInterval w1 = None) /\
  resumeLogout srv (S (S n)) w1 = (Ok tt, w2) /\
  authState w2 = mkAuthState VNull VNull VNull /\
  storage w2 = None /\
  refreshInterval w2 = None /\
  timers w2 = timers_after_stop w /\
  navigations w2 = navigations w ++ ["/index.html"].
Proof.
  intros P w1 w2.
  destruct (logout_unawaited_frame srv w)
    as (A & S0 & I & T & _ & N & _ & [k Q] & _).
  fold w1 in A, S0, I, T, N, Q. rewrite P in Q. cbn [app] in Q.
  destruct (stopAutoRefresh_runs w) as (_ & _ & T' & _). rewrite T' in T.
  split; [now repeat split |].
  assert (R : resumeLogout srv (S (S n)) w1 =
              logout_resume srv (S (S n)) k (set_pending [] w1)).
  { unfold resumeLogout, bind, gets. now rewrite Q. }
  destruct (logout_resume_runs n k (set_pending [] w1))
    as (E & A2 & S2 & N2 & H).
  subst w2. rewrite R, E. cbn [snd].
  destruct (H I) as [I2 T2].
  rewrite A2, S2, I2, T2, N2. cbn. rewrite T, N. now repeat split.
Qed.

(** ** What a call that returns has not done *)

(** X11.  [apiCall] never navigates: whatever it returns or throws, the
    page has not been sent anywhere and the console is untouched.  And a
    call that returns has not logged out: the interval, the suspended
    tasks are as before.  A [logout()] is started only together with an
    error thrown to the caller. *)
Theorem apiCall_return_is_quiet (n : nat) (e m : string) (b : value)
    (w : World) :
  let run := apiCall srv (S (S (S n))) e m b w in
  navigations (snd run) = navigations w /\
  console (snd run) = console w /\
  (forall v, fst run = Ok v ->
     refreshInterval (snd run) = refreshInterval w /\
     timers (snd run) = timers w /\
     pending (snd run) = pending w) /\
  (pending (snd run) <> pending w -> exists x, fst run = Throw x).
Proof.
  intros run.
  destruct (apiCall_frame srv n e m b w) as (_ & N & C & _ & L).
  fold run in N, C, L. clearbody run.
  split; [exact N |]. split; [exact C |]. split.
  - intros v H.
    destruct L as [(A & B & P) | (_ & _ & _ & x & X)]; [now repeat split |].
    rewrite X in H. discriminate.
  - intros H. destruct L as [(_ & _ & A) | (_ & _ & _ & X)];
      [now elim H | exact X].
Qed.

(** X13.  A renewal that returns has replaced the session by the three
    fields of the answer and written the storage slot from its
    [refreshToken]; the interval, the suspended tasks, the navigations
    and the console are as before.  [initAuth] does the same and then has
    the interval running. *)
Theorem renewal_adopts_answer (n : nat) (w : World) :
  (forall res w',
      refreshToken srv (S (S n)) w = (Ok res, w') ->
      exists a r u,
        get_field res "accessToken" = inr a /\
        get_field res "refreshToken" = inr r /\
        get_field res "user" = inr u /\
        authState w' = mkAuthState a r u /\
        storage w' = (if truthy r then Some (to_string r) else None) /\
        same_page w w') /\
  (forall res w',
      initAuth srv (S (S n)) w = (Ok res, w') ->
      exists a r u,
        get_field res "accessToken" = inr a /\
        get_field res "refreshToken" = inr r /\
        get_field res "user" = inr u /\
        authState w' = mkAuthState a r u /\
        storage w' = (if truthy r then Some (to_string r) else None) /\
        refreshInterval w' = Some (next_handle w) /\
        In (mkTimer (next_handle w) REFRESH_INTERVAL) (timers w') /\
        navigations w' = navigations w /\ pending w' = pending w).
Proof.
  assert (R : forall res w',
      refreshToken srv (S (S n)) w = (Ok res, w') ->
      exists a r u,
        get_field res "accessToken" = inr a /\
        get_field res "refreshToken" = inr r /\
        get_field res "user" = inr u /\
        authState w' = mkAuthState a r u /\
        storage w' = (if truthy r then Some (to_string r) else None) /\
        same_page w w').
  { intros res w' E.
    apply refreshToken_ok in E as (a & r & u & w1 & F & Ga & Gr & Gu & ->).
    exists a, r, u. repeat split; auto; apply F. }
  split; [exact R |].
  intros res w' E. apply initAuth_ok in E as (w1 & E & ->).
  destruct (R res w1 E) as (a & r & u & Ga & Gr & Gu & A & S0 & F).
  destruct F as (_ & _ & H & N & _ & P).
  destruct (startAutoRefresh_runs w1)
    as (_ & I & T & A' & S' & _ & N' & _ & P').
  exists a, r, u. rewrite I, T, A', S', N', P', H.
  repeat split; auto. apply in_or_app. right. now left.
Qed.

End Further.

(** * The 401 protocol, as it is seen from outside *)

Section Protocol.

Variable srv : Server.

Lemma options_for_explicit (a : value) (m : string) (b : value) :
  options_for a m b =
  mkOptions m
    (if truthy a
     then [("Content-Type", "application/json");
           ("Authorization", ("Bearer " ++ to_string a)%string)]
     else [("Content-Type", "application/json")])
    (if truthy b then Some b else None).
Proof. unfold options_for. now destruct (truthy a). Qed.

Lemma retry_request_explicit (a : value) (e m : string) (b : value)
    (w1 : World) :
  retry_request e (options_for a m b) w1 =
  mkRequest e
    (mkOptions m
       [("Content-Type", "application/json");
        ("Authorization",
         ("Bearer " ++ to_string (access (authState w1)))%string)]
       (if truthy b then Some b else None)).
Proof.
  unfold retry_request, with_authorization, options_for.
  now destruct (truthy a).
Qed.

(** What an un-awaited [logout()] has done when its caller goes on. *)
Lemma logout_unawaited_observed (w2 : World) :
  let lrq :=
    mkRequest "/logout"
      (mkOptions "POST"
         (if truthy (access (authState w2))
          then [("Content-Type", "application/json");
                ("Authorization",
                 ("Bearer " ++ to_string (access (authState w2)))%string)]
          else [("Content-Type", "application/json")])
         None) in
  let w' := snd (logout_unawaited srv w2) in
  requests w' = requests w2 ++ [lrq] /\
  pending w' =
    pending w2 ++ [mkTask (r_options lrq) (srv (requests w2) lrq)] /\
  refreshInterval w' = None /\
  (forall h, refreshInterval w2 = Some h ->
             ~ In h (map t_handle (timers w'))) /\
  authState w' = authState w2 /\
  storage w' = storage w2 /\
  navigations w' = navigations w2.
Proof.
  intros lrq w'.
  assert (E : w' =
    set_pending (pending w2 ++ [mkTask (r_options lrq) (srv (requests w2) lrq)])
      (sent lrq (snd (stopAutoRefresh w2)))).
  { subst w' lrq.
    pose proof (options_for_explicit (access (authState w2)) "POST" VNull)
      as O.
    cbn [truthy] in O. rewrite <- O.
    unfold logout_unawaited, logout_begin, stopAutoRefresh, clearInterval,
      bind, gets, modify, build_options, fetch, ret.
    now destruct (refreshInterval w2). }
  destruct (stopAutoRefresh_runs w2)
    as (_ & I & T & A & S0 & _ & Q & N & _ & _).
  rewrite E. cbn [set_pending sent set_requests requests pending
                  refreshInterval timers authState storage navigations].
  rewrite Q, I, T, A, S0, N. repeat split.
  intros h. apply timers_after_stop_handle.
Qed.

(** [apiCall] after a 401 and a renewal that returned. *)
Lemma apiCall_renewed (n : nat) (endpoint method : string) (body : value)
    (w : World) (response : Response) (res : value) (w1 : World) :
  let rq := mkRequest endpoint
              (options_for (access (authState w)) method body) in
  let call := apiCall srv (S (S (S n))) endpoint method body w in
  let rq' :=
    mkRequest endpoint
      (mkOptions method
         [("Content-Type", "application/json");
          ("Authorization",
           ("Bearer " ++ to_string (access (authState w1)))%string)]
         (if truthy body then Some body else None)) in
  srv (requests w) rq = Responded response ->
  status response = 401 ->
  endpoint <> "/refresh" ->
  refreshToken srv (S (S n)) (sent rq w) = (Ok res, w1) ->
  match srv (requests w1) rq' with
  | Responded retry =>
      if ok retry then call = response_json retry (sent rq' w1)
      else call = (Throw (Error "Retry failed"),
                   snd (logout_unawaited srv (sent rq' w1)))
  | Rejected =>
      call = (Throw FetchError, snd (logout_unawaited srv (sent rq' w1)))
  end.
Proof.
  intros rq call rq' Hs H401 Hne R.
  pose proof (apiCall_settle_401 srv (refreshToken srv (S (S n))) endpoint
                (options_for (access (authState w)) method body)
                response (sent rq w) H401 Hne) as E.
  rewrite R in E. cbv zeta in E. rewrite retry_request_explicit in E.
  fold rq' in E.
  assert (U : call = apiCall_settle srv (refreshToken srv (S (S n))) endpoint
                       (options_for (access (authState w)) method body)
                       (Responded response) (sent rq w)).
  { subst call. rewrite apiCall_unfold. fold rq. now rewrite Hs. }
  rewrite <- U in E. clearbody call.
  destruct (srv (requests w1) rq') as [| retry]; [exact E |].
  now destruct (ok retry).
Qed.

Lemma refreshToken_ok_present (k : nat) (w : World) (res : value)
    (w' : World) :
  refreshToken srv (S k) w = (Ok res, w') ->
  exists s, storage w = Some s /\ present (storage w) = true.
Proof.
  intros R. destruct (present (storage w)) eqn:P.
  - destruct (storage w) as [s |]; [eauto | discriminate].
  - cbn [refreshToken] in R. unfold bind, getStoredRefresh, gets in R.
    rewrite P in R. discriminate.
Qed.

(** The log of a renewal that returned, made after the request [rq]. *)
Lemma renewal_log (n : nat) (rq : Request) (w : World) (res : value)
    (w1 : World) :
  refreshToken srv (S (S n)) (sent rq w) = (Ok res, w1) ->
  exists a1 s,
    get_field res "accessToken" = inr a1 /\
    access (authState w1) = a1 /\
    storage w = Some s /\
    requests w1 =
      requests w ++
        [rq;
         mkRequest "/refresh"
           (mkOptions "POST"
              (if truthy (access (authState w))
               then [("Content-Type", "application/json");
                     ("Authorization",
                      ("Bearer " ++ to_string (access (authState w)))%string)]
               else [("Content-Type", "application/json")])
              (Some (VObj 0 [("refresh_token", VStr s)])))] /\
    same_page w w1.
Proof.
  intros R.
  destruct (refreshToken_ok_present _ _ _ _ R) as (s & S0 & P).
  pose proof (refreshToken_request srv n (sent rq w) P) as Q.
  rewrite R in Q. cbn [snd] in Q.
  rewrite options_for_explicit in Q.
  cbn [sent set_requests requests authState storage truthy] in Q, S0.
  rewrite S0 in Q. cbn [of_stored] in Q. rewrite <- app_assoc in Q.
  pose proof (refreshToken_frame srv n _ _ _ R) as (F & _).
  apply refreshToken_ok in R as (a & r & u & w0 & _ & Ga & _ & _ & ->).
  exists a, s. repeat split; auto; apply F.
Qed.

(** C1, as the code has it.  A call of [apiCall] that is answered 401 on
    an endpoint other than /refresh makes a renewal -- a POST to /refresh
    with the stored credential, sent after the first request -- and, when
    the renewal returns, sends its request once more: same endpoint,
    method and body, with the headers Content-Type and "Authorization:
    Bearer <the access token of the renewal's answer>".  A 2xx answer to
    that second request is the call's result and nothing else has
    happened.  When the renewal throws, or the second request is rejected
    or answered other than 2xx, a [logout()] is started -- its POST to
    /logout is sent, its task is left suspended, the interval is cleared,
    the session still in place -- and the error is thrown to the caller.
    On /refresh the call is [apiRequest] and sends its one request
    whatever the status.  One call sends at most four requests, at most
    three of them to its own endpoint and at most two when that is not
    /logout: the third is the first request of the logout it started. *)
Theorem apiCall_retries_own_request_once (n : nat) (endpoint method : string)
    (body : value) (w : World) :
  let headers_for := fun t : value =>
    if truthy t
    then [("Content-Type", "application/json");
          ("Authorization", ("Bearer " ++ to_string t)%string)]
    else [("Content-Type", "application/json")] in
  let sent_body := if truthy body then Some body else None in
  let rq := mkRequest endpoint
              (mkOptions method (headers_for (access (authState w)))
                 sent_body) in
  let call := apiCall srv (S (S (S n))) endpoint method body w in
  let logout_started := fun (log : list Request) (w2 w' : World) =>
    let lrq := mkRequest "/logout"
                 (mkOptions "POST" (headers_for (access (authState w2)))
                    None) in
    requests w' = log ++ [lrq] /\
    pending w' = pending w2 ++ [mkTask (r_options lrq) (srv log lrq)] /\
    refreshInterval w' = None /\
    (forall h, refreshInterval w2 = Some h ->
               ~ In h (map t_handle (timers w'))) /\
    authState w' = authState w2 /\
    storage w' = storage w2 /\
    navigations w' = navigations w2 in
  (forall response,
      srv (requests w) rq = Responded response ->
      status response = 401 ->
      endpoint <> "/refresh" ->
      match refreshToken srv (S (S n)) (sent rq w) with
      | (Ok res, w1) =>
          exists a1 s,
            get_field res "accessToken" = inr a1 /\
            access (authState w1) = a1 /\
            storage w = Some s /\
            requests w1 =
              requests w ++
                [rq;
                 mkRequest "/refresh"
                   (mkOptions "POST" (headers_for (access (authState w)))
                      (Some (VObj 0 [("refresh_token", VStr s)])))] /\
            pending w1 = pending w /\
            let rq' :=
              mkRequest endpoint
                (mkOptions method
                   [("Content-Type", "application/json");
                    ("Authorization", ("Bearer " ++ to_string a1)%string)]
                   sent_body) in
            match srv (requests w1) rq' with
            | Responded retry =>
                if ok retry then
                  fst call = match json retry with
                             | Some v => Ok v
                             | None => Throw SyntaxError
                             end /\
                  requests (snd call) = requests w1 ++ [rq'] /\
                  pending (snd call) = pending w /\
                  refreshInterval (snd call) = refreshInterval w /\
                  navigations (snd call) = navigations w /\
                  authState (snd call) = authState w1 /\
                  storage (snd call) = storage w1
                else
                  fst call = Throw (Error "Retry failed") /\
                  logout_started (requests w1 ++ [rq']) w1 (snd call)
            | Rejected =>
                fst call = Throw FetchError /\
                logout_started (requests w1 ++ [rq']) w1 (snd call)
            end
      | (Throw e, w1) =>
          fst call = Throw e /\
          (requests w1 = requests w ++ [rq] \/
           exists o, requests w1 = requests w ++ [rq; mkRequest "/refresh" o]) /\
          logout_started (requests w1) w1 (snd call)
      | (OutOfFuel, _) => False
      end) /\
  (endpoint = "/refresh" ->
      call = apiRequest srv endpoint method body w /\
      requests (snd call) = requests w ++ [rq] /\
      pending (snd call) = pending w) /\
  (exists l,
      requests (snd call) = requests w ++ rq :: l /\
      (length l <= 3)%nat /\
      (count_to endpoint (rq :: l) <= 3)%nat /\
      (endpoint <> "/logout" -> (count_to endpoint (rq :: l) <= 2)%nat)).
Proof.
  intros headers_for sent_body rq call logout_started.
  assert (RQ : rq = mkRequest endpoint
                      (options_for (access (authState w)) method body))
    by (subst rq headers_for sent_body; now rewrite options_for_explicit).
  assert (Started : forall w2,
            logout_started (requests w2) w2 (snd (logout_unawaited srv w2)))
    by (intros w2; apply logout_unawaited_observed).
  assert (Started' : forall rq' w1,
            logout_started (requests w1 ++ [rq']) w1
              (snd (logout_unawaited srv (sent rq' w1))))
    by (intros rq' w1; apply (Started (sent rq' w1))).
  clearbody logout_started.
  split; [| split].
  - intros response Hs H401 Hne. rewrite RQ in Hs |- *.
    destruct (refreshToken srv (S (S n)) (sent _ w)) as [[res | e |] w1] eqn:R.
    + pose proof (apiCall_renewed n endpoint method body w response res w1
                    Hs H401 Hne R) as E.
      cbv zeta in E. fold call sent_body in E.
      destruct (renewal_log n _ w res w1 R) as (a1 & s & Ga & A & S0 & Q & F).
      rewrite <- RQ in Q.
      exists a1, s. rewrite A in E.
      split; [exact Ga |]. split; [exact A |]. split; [exact S0 |].
      split; [exact Q |]. split; [apply F |].
      cbv zeta. clearbody call.
      destruct (srv (requests w1) _) as [| retry].
      * rewrite E. cbn [fst snd]. split; [reflexivity | apply Started'].
      * destruct (ok retry).
        -- rewrite E. destruct F as (I & _ & _ & N & _ & P).
           unfold response_json.
           destruct (json retry); cbn; now repeat split.
        -- rewrite E. cbn [fst snd]. split; [reflexivity | apply Started'].
    + pose proof (apiCall_settle_401 srv (refreshToken srv (S (S n))) endpoint
                    (options_for (access (authState w)) method body)
                    response
                    (sent (mkRequest endpoint
                             (options_for (access (authState w)) method body))
                       w) H401 Hne) as E.
      rewrite R in E.
      assert (U : call = apiCall_settle srv (refreshToken srv (S (S n)))
                           endpoint
                           (options_for (access (authState w)) method body)
                           (Responded response)
                           (sent (mkRequest endpoint
                                    (options_for (access (authState w))
                                       method body)) w)).
      { subst call. rewrite apiCall_unfold. now rewrite Hs. }
      rewrite <- U in E. rewrite E. cbn [fst snd].
      split; [reflexivity |]. split; [| apply Started].
      apply refreshToken_frame in R as (_ & _ & [Q | [o Q]]).
      * left. exact Q.
      * right. exists o. rewrite Q. cbn [sent set_requests requests].
        now rewrite <- app_assoc.
    + now apply refreshToken_frame in R.
  - intros ->. subst call. rewrite apiCall_refresh_endpoint.
    split; [reflexivity |].
    rewrite (proj1 (apiRequest_world srv _ _ _ _)), <- RQ.
    now split.
  - destruct (apiCall_settle_frame srv (refreshToken srv (S (S n))) endpoint
                (options_for (access (authState w)) method body)
                (srv (requests w) rq) (sent rq w))
      as (_ & _ & _ & _ & _ & l & Q & L & K & K').
    { intros w0 x w0'. apply refreshToken_frame. }
    assert (U : call = apiCall_settle srv (refreshToken srv (S (S n)))
                         endpoint
                         (options_for (access (authState w)) method body)
                         (srv (requests w) rq) (sent rq w)).
    { subst call. rewrite apiCall_unfold. now rewrite <- RQ. }
    rewrite <- U in Q. exists l. cbn [sent set_requests requests] in Q.
    rewrite Q, <- app_assoc.
    pose proof (count_to_le endpoint [rq]) as H. cbn [length] in H.
    change (rq :: l) with ([rq] ++ l). rewrite count_to_app.
    split; [reflexivity |]. split; [exact L |]. split; [lia |].
    intros Hl. specialize (K Hl). lia.
Qed.

(** X12.  The request [apiCall] sends again after a renewal always has an
    Authorization header, and exactly one: "Bearer " followed by the
    [accessToken] of the renewal's answer read as a string -- so "Bearer
    undefined" when the answer had none -- whether or not the first
    request had the header.  It is the first thing the call sends after
    the renewal, with the method and body of the first request, and at
    most the request of a logout follows it. *)
Theorem retry_always_carries_authorization (n : nat)
    (endpoint method : string) (body : value) (w : World)
    (response : Response) (res : value) (w1 : World) :
  let rq := mkRequest endpoint
              (mkOptions method
                 (if truthy (access (authState w))
                  then [("Content-Type", "application/json");
                        ("Authorization",
                         ("Bearer " ++
                          to_string (access (authState w)))%string)]
                  else [("Content-Type", "application/json")])
                 (if truthy body then Some body else None)) in
  srv (requests w) rq = Responded response ->
  status response = 401 ->
  endpoint <> "/refresh" ->
  refreshToken srv (S (S n)) (sent rq w) = (Ok res, w1) ->
  exists a1 l,
    get_field res "accessToken" = inr a1 /\
    requests (snd (apiCall srv (S (S (S n))) endpoint method body w)) =
    requests w1 ++
      mkRequest endpoint
        (mkOptions method
           [("Content-Type", "application/json");
            ("Authorization", ("Bearer " ++ to_string a1)%string)]
           (if truthy body then Some body else None))
      :: l /\
    (length l <= 1)%nat.
Proof.
  intros rq Hs H401 Hne R.
  assert (RQ : rq = mkRequest endpoint
                      (options_for (access (authState w)) method body))
    by (subst rq; now rewrite options_for_explicit).
  rewrite RQ in Hs, R.
  pose proof (apiCall_renewed n endpoint method body w response res w1
                Hs H401 Hne R) as E.
  cbv zeta in E.
  destruct (renewal_log n _ w res w1 R) as (a1 & s & Ga & A & _).
  rewrite A in E. exists a1. clear RQ Hs R. clearbody rq.
  set (rq' := mkRequest endpoint
                (mkOptions method
                   [("Content-Type", "application/json");
                    ("Authorization", ("Bearer " ++ to_string a1)%string)]
                   (if truthy body then Some body else None))) in *.
  assert (L : exists l,
            requests (snd (logout_unawaited srv (sent rq' w1))) =
            requests w1 ++ rq' :: l /\ (length l <= 1)%nat).
  { destruct (logout_unawaited_observed (sent rq' w1)) as (Q & _).
    rewrite Q. cbn [sent set_requests requests]. rewrite <- app_assoc.
    eexists. split; [reflexivity | cbn; lia]. }
  destruct (srv (requests w1) rq') as [| retry].
  - rewrite E. cbn [snd]. destruct L as (l & Q & Len). now exists l.
  - destruct (ok retry).
    + rewrite E. exists []. unfold response_json.
      destruct (json retry); cbn; repeat split; auto.
    + rewrite E. cbn [snd]. destruct L as (l & Q & Len). now exists l.
Qed.

End Protocol.

(** * Properties of the selector parser of mount.js *)

Section MountProperties.

Import Mount.

(** ** The selector cache *)

Lemma cache_get_set (k' k : string) (v : Parsed) (c : list (string * Parsed)) :
  cache_get k' (cache_set k v c) =
  if (k' =? k)%string then Some v else cache_get k' c.
Proof.
  induction c as [| [k0 v0] c IH]; cbn; [reflexivity |].
  destruct (k =? k0)%string eqn:E; cbn.
  - apply String.eqb_eq in E. subst k0.
    now destruct (k' =? k)%string.
  - destruct (k' =? k0)%string eqn:E'; [| exact IH].
    apply String.eqb_eq in E'. subst k0.
    rewrite String.eqb_sym in E. now rewrite E.
Qed.

Lemma cache_set_length (k : string) (v : Parsed) (c : list (string * Parsed)) :
  (length (cache_set k v c) <= S (length c))%nat.
Proof.
  induction c as [| [k0 v0] c IH]; cbn; [lia |].
  destruct (k =? k0)%string; cbn; lia.
Qed.

Lemma parseSelector_inv (selector : string) (st : State) :
  cache_sound (SELECTOR_CACHE st) ->
  (length (SELECTOR_CACHE st) <= 1000)%nat ->
  fst (parseSelector selector st) = parse selector /\
  cache_sound (SELECTOR_CACHE (snd (parseSelector selector st))) /\
  (length (SELECTOR_CACHE (snd (parseSelector selector st))) <= 1000)%nat /\
  (forall k v, cache_get k (SELECTOR_CACHE st) = Some v ->
     cache_get k (SELECTOR_CACHE (snd (parseSelector selector st))) = Some v).
Proof.
  intros Snd Len. unfold parseSelector.
  destruct (cache_get selector (SELECTOR_CACHE st)) as [cached |] eqn:G;
    cbn [fst snd].
  - repeat split; auto.
  - split; [reflexivity |].
    destruct (Nat.ltb (length (SELECTOR_CACHE st)) 1000) eqn:L;
      [| repeat split; auto].
    apply Nat.ltb_lt in L. cbn [SELECTOR_CACHE]. repeat split.
    + intros k v. rewrite cache_get_set.
      destruct (k =? selector)%string eqn:E.
      * apply String.eqb_eq in E. subst k. now intros [= <-].
      * apply Snd.
    + pose proof (cache_set_length selector (parse selector) (SELECTOR_CACHE st)).
      lia.
    + intros k v H. rewrite cache_get_set.
      destruct (k =? selector)%string eqn:E; [| exact H].
      apply String.eqb_eq in E. subst k. congruence.
Qed.

Lemma reachable_inv (st : State) :
  Mount.reachable st ->
  cache_sound (SELECTOR_CACHE st) /\ (length (SELECTOR_CACHE st) <= 1000)%nat.
Proof.
  induction 1 as [| selector st _ [Snd Len] | st _ _].
  - split; [intros k v; discriminate | cbn; lia].
  - destruct (parseSelector_inv selector st Snd Len) as (_ & A & B & _).
    now split.
  - split; [intros k v; discriminate | cbn; lia].
Qed.

(** X14.  The selector cache cannot be told from outside: in every state
    of the module [parseSelector] returns what parsing the selector
    afresh gives.  The cache never holds more than 1000 entries, and an
    entry once made stays until [clearCaches]. *)
Theorem parseSelector_cache_is_transparent (selector : string) (st : State) :
  Mount.reachable st ->
  fst (parseSelector selector st) = parse selector /\
  (length (SELECTOR_CACHE (snd (parseSelector selector st))) <= 1000)%nat /\
  (forall k v, cache_get k (SELECTOR_CACHE st) = Some v ->
     cache_get k (SELECTOR_CACHE (snd (parseSelector selector st))) = Some v).
Proof.
  intros R. apply reachable_inv in R as [Snd Len].
  destruct (parseSelector_inv selector st Snd Len) as (A & _ & B & C).
  now repeat split.
Qed.

Lemma or_div_nonempty (x : option string) : or_div x <> "".
Proof.
  destruct x as [t |]; cbn; [| discriminate].
  destruct (t =? "")%string eqn:E; [discriminate |].
  now apply String.eqb_neq.
Qed.

Lemma parse_tag_nonempty (selector : string) : tag (parse selector) <> "".
Proof.
  unfold parse.
  destruct (selector_exec (trim selector)) as [[m1 m2] |]; cbn [tag];
    apply or_div_nonempty.
Qed.

(** X15.  The tag [parseSelector] returns is never the empty string,
    whatever the selector and whatever the cache holds: a selector
    without tag name gives "div". *)
Theorem parseSelector_tag_nonempty (selector : string) (st : State) :
  Mount.reachable st ->
  tag (fst (parseSelector selector st)) <> "".
Proof.
  intros R. apply reachable_inv in R as [Snd Len].
  rewrite (proj1 (parseSelector_inv selector st Snd Len)).
  apply parse_tag_nonempty.
Qed.

(** ** [clearCaches] *)

Lemma pop_while_over_firstn (rounds : nat) (pool : list TextNode) :
  (length pool <= 100 + rounds)%nat ->
  pop_while_over rounds pool = firstn 100 pool.
Proof.
  revert pool. induction rounds as [| rounds IH]; intros pool H;
    cbn [pop_while_over].
  - symmetry. apply firstn_all2. lia.
  - destruct (Nat.ltb 100 (length pool)) eqn:L.
    + apply Nat.ltb_lt in L.
      rewrite IH.
      * rewrite removelast_firstn_len, firstn_firstn.
        f_equal. lia.
      * rewrite removelast_firstn_len, length_firstn. lia.
    + apply Nat.ltb_ge in L. symmetry. apply firstn_all2. lia.
Qed.

(** X16.  [clearCaches] empties the selector cache and cuts the pool of
    text nodes down to its first 100, leaving a shorter pool as it is.
    The next [parseSelector] parses afresh and caches its result. *)
Theorem clearCaches_resets (st : State) :
  SELECTOR_CACHE (clearCaches st) = [] /\
  TEXT_NODE_POOL (clearCaches st) = firstn 100 (TEXT_NODE_POOL st) /\
  ((length (TEXT_NODE_POOL st) <= 100)%nat ->
   TEXT_NODE_POOL (clearCaches st) = TEXT_NODE_POOL st) /\
  (forall selector,
      parseSelector selector (clearCaches st) =
      (parse selector,
       mkState [(selector, parse selector)] (firstn 100 (TEXT_NODE_POOL st)))).
Proof.
  assert (P : TEXT_NODE_POOL (clearCaches st) = firstn 100 (TEXT_NODE_POOL st)).
  { cbn [clearCaches TEXT_NODE_POOL]. apply pop_while_over_firstn. lia. }
  split; [reflexivity |]. split; [exact P |]. split.
  - intros H. rewrite P. now apply firstn_all2.
  - intros selector. unfold parseSelector. cbn [clearCaches SELECTOR_CACHE
      cache_get length Nat.ltb Nat.leb cache_set TEXT_NODE_POOL].
    now rewrite pop_while_over_firstn by lia.
Qed.

(** ** White space around a selector *)

Lemma all_chars_trim_start (b : string) :
  all_chars is_space b = true -> all_chars is_space (trim_start b) = true.
Proof.
  induction b as [| c b IH]; cbn; [reflexivity |].
  intros H. apply andb_true_iff in H as [Hc Hb]. rewrite Hc. now apply IH.
Qed.

Lemma trim_start_spaces (a x : string) :
  all_chars is_space a = true -> trim_start (a ++ x) = trim_start x.
Proof.
  induction a as [| c a IH]; cbn; [reflexivity |].
  intros H. apply andb_true_iff in H as [Hc Ha]. rewrite Hc. now apply IH.
Qed.

Lemma trim_end_only_spaces (b : string) :
  all_chars is_space b = true -> trim_end b = "".
Proof.
  induction b as [| c b IH]; cbn; [reflexivity |].
  intros H. apply andb_true_iff in H as [Hc Hb].
  now rewrite (IH Hb), Hc.
Qed.

Lemma trim_end_spaces (x b : string) :
  all_chars is_space b = true -> trim_end (x ++ b) = trim_end x.
Proof.
  intros Hb. induction x as [| c x IH]; cbn.
  - now apply trim_end_only_spaces.
  - now rewrite IH.
Qed.

Lemma trim_spaces_right (s b : string) :
  all_chars is_space b = true ->
  trim_end (trim_start (s ++ b)) = trim_end (trim_start s).
Proof.
  intros Hb. induction s as [| c s IH].
  - cbn [append]. change (trim_end (trim_start "")) with "".
    now apply trim_end_only_spaces, all_chars_trim_start.
  - cbn [append trim_start]. destruct (is_space c); [exact IH |].
    change (String c (s ++ b)) with (String c s ++ b)%string.
    now apply trim_end_spaces.
Qed.

(** X17.  White space around a selector does not count: [parse] gives
    the same result for a selector with any white space before and after
    it. *)
Theorem parse_ignores_outer_space (a s b : string) :
  all_chars is_space a = true ->
  all_chars is_space b = true ->
  parse (a ++ s ++ b) = parse s.
Proof.
  intros Ha Hb. unfold parse.
  assert (T : trim (a ++ s ++ b) = trim s).
  { unfold trim. rewrite (trim_start_spaces a _ Ha).
    now apply trim_spaces_right. }
  now rewrite T.
Qed.

(** ** Selectors written [tag.class1.class2...] *)

Ltac each_char c :=
  destruct c as [[|] [|] [|] [|] [|] [|] [|] [|]]; vm_compute;
  try reflexivity; try discriminate; auto.

Lemma word_not_space (c : ascii) : is_word c = true -> is_space c = false.
Proof. each_char c. Qed.

Lemma word_not_dot (c : ascii) : is_word c = true -> is_dot c = false.
Proof. each_char c. Qed.

Lemma dot_is_dot (c : ascii) : is_dot c = true -> c = "."%char.
Proof. each_char c. Qed.

Lemma alnum_word (c : ascii) : is_alnum c = true -> is_word c = true.
Proof. unfold is_word. now intros ->. Qed.

Lemma all_chars_impl (p q : ascii -> bool) (s : string) :
  (forall c, p c = true -> q c = true) ->
  all_chars p s = true -> all_chars q s = true.
Proof.
  intros I. induction s as [| c s IH]; cbn; [reflexivity |].
  intros H. apply andb_true_iff in H as [Hc Hs].
  now rewrite (I c Hc), (IH Hs).
Qed.

Lemma all_chars_app (p : ascii -> bool) (x y : string) :
  all_chars p (x ++ y) = all_chars p x && all_chars p y.
Proof.
  induction x as [| c x IH]; cbn; [reflexivity |].
  now rewrite IH, andb_assoc.
Qed.

Lemma append_empty_r (s : string) : (s ++ "")%string = s.
Proof. induction s as [| c s IH]; cbn; [reflexivity | now rewrite IH]. Qed.

Lemma trim_end_no_space (s : string) :
  all_chars (fun c => negb (is_space c)) s = true -> trim_end s = s.
Proof.
  induction s as [| c s IH]; cbn; [reflexivity |].
  intros H. apply andb_true_iff in H as [Hc Hs].
  rewrite (IH Hs). apply negb_true_iff in Hc. rewrite Hc.
  now destruct s.
Qed.

Lemma trim_no_space (s : string) :
  all_chars (fun c => negb (is_space c)) s = true -> trim s = s.
Proof.
  intros H. unfold trim.
  assert (T : trim_start s = s).
  { destruct s as [| c s]; cbn in *; [reflexivity |].
    apply andb_true_iff in H as [Hc _]. apply negb_true_iff in Hc.
    now rewrite Hc. }
  rewrite T. now apply trim_end_no_space.
Qed.

Lemma span_alnum_stop (t rest : string) :
  all_chars is_alnum t = true ->
  match rest with
  | String c _ => is_alnum c = false
  | EmptyString => True
  end ->
  span_alnum (t ++ rest) = (t, rest).
Proof.
  intros Ht Hr. induction t as [| c t IH]; cbn.
  - destruct rest as [| d r]; cbn; [reflexivity | now rewrite Hr].
  - cbn in Ht. apply andb_true_iff in Ht as [Hc Ht].
    now rewrite Hc, (IH Ht).
Qed.

Lemma class_list_words (c : string) :
  all_chars is_word c = true -> class_list InWord c = true.
Proof.
  induction c as [| a c IH]; cbn; [reflexivity |].
  intros H. apply andb_true_iff in H as [Ha Hc]. rewrite Ha. now apply IH.
Qed.

Lemma class_list_stuck (st : class_state) (x y : string) (d : ascii) :
  is_word d = false -> is_space d = false ->
  class_list st (x ++ String d y) = false.
Proof.
  intros Hw Hs. revert st. induction x as [| a x IH]; intros st; cbn.
  - now rewrite Hw, Hs.
  - destruct (is_word a); [apply IH |].
    destruct (is_space a); [| reflexivity].
    destruct st; [reflexivity | apply IH | apply IH].
Qed.

Lemma collapse_no_space (b : bool) (s : string) :
  all_chars (fun c => negb (is_space c)) s = true -> collapse b s = s.
Proof.
  revert b. induction s as [| c s IH]; intros b; cbn; [reflexivity |].
  intros H. apply andb_true_iff in H as [Hc Hs].
  apply negb_true_iff in Hc. now rewrite Hc, (IH false Hs).
Qed.

Lemma split_dot_none (p : string) :
  all_chars (fun c => negb (is_dot c)) p = true -> split_dot p = [p].
Proof.
  induction p as [| c p IH]; cbn; [reflexivity |].
  intros H. apply andb_true_iff in H as [Hc Hp].
  apply negb_true_iff in Hc. now rewrite Hc, (IH Hp).
Qed.

Lemma split_dot_first (p r : string) :
  all_chars (fun c => negb (is_dot c)) p = true ->
  split_dot (p ++ String "."%char r) = p :: split_dot r.
Proof.
  induction p as [| c p IH]; cbn; [reflexivity |].
  intros H. apply andb_true_iff in H as [Hc Hp].
  apply negb_true_iff in Hc. now rewrite Hc, (IH Hp).
Qed.

Lemma split_dot_dotted (t : string) (classes : list string) :
  all_chars (fun c => negb (is_dot c)) t = true ->
  forallb (all_chars (fun c => negb (is_dot c))) classes = true ->
  split_dot (t ++ dotted classes) = t :: classes.
Proof.
  revert t. induction classes as [| c cs IH]; intros t Ht Hcs; cbn [dotted].
  - rewrite append_empty_r. now apply split_dot_none.
  - cbn in Hcs. apply andb_true_iff in Hcs as [Hc Hcs].
    cbn [append]. rewrite (split_dot_first t _ Ht).
    now rewrite (IH c Hc Hcs).
Qed.

Lemma class_name_chars (c : string) :
  class_name c = true ->
  c <> "" /\ all_chars is_word c = true /\
  all_chars (fun c => negb (is_space c)) c = true /\
  all_chars (fun c => negb (is_dot c)) c = true.
Proof.
  unfold class_name. intros H. apply andb_true_iff in H as [N W].
  apply negb_true_iff, String.eqb_neq in N.
  repeat split; auto.
  - apply (all_chars_impl is_word); [| exact W].
    intros a Ha. now rewrite (word_not_space a Ha).
  - apply (all_chars_impl is_word); [| exact W].
    intros a Ha. now rewrite (word_not_dot a Ha).
Qed.

Lemma dotted_chars (p : ascii -> bool) (classes : list string) :
  p "."%char = true ->
  forallb (all_chars p) classes = true ->
  all_chars p (dotted classes) = true.
Proof.
  intros Hd. induction classes as [| c cs IH]; cbn; [reflexivity |].
  intros H. apply andb_true_iff in H as [Hc Hcs].
  now rewrite Hd, all_chars_app, Hc, (IH Hcs).
Qed.

Lemma forallb_impl (A : Type) (p q : A -> bool) (l : list A) :
  (forall x, p x = true -> q x = true) ->
  forallb p l = true -> forallb q l = true.
Proof.
  intros I. induction l as [| x l IH]; cbn; [reflexivity |].
  intros H. apply andb_true_iff in H as [Hx Hl].
  now rewrite (I x Hx), (IH Hl).
Qed.

Lemma tag_name_chars (t : string) :
  t = "" \/ tag_name t = true ->
  all_chars is_alnum t = true /\
  match t with
  | String c _ => is_letter c = true
  | EmptyString => True
  end.
Proof.
  intros [-> | H]; [now split |].
  destruct t as [| c t]; [discriminate |].
  unfold tag_name in H. apply andb_true_iff in H as [L A]. now split.
Qed.

(** What the expression makes of a tag name, or none, followed by
    nothing or by a dot and more. *)
Lemma selector_exec_shape (t rest : string) :
  t = "" \/ tag_name t = true ->
  match rest with
  | String c _ => c = "."%char
  | EmptyString => True
  end ->
  selector_exec (t ++ rest) =
  let g1 := if (t =? "")%string then None else Some t in
  match rest with
  | EmptyString => Some (g1, None)
  | String _ r =>
      if class_list NeedWord r then Some (g1, Some r) else None
  end.
Proof.
  intros Ht Hr.
  destruct (tag_name_chars t Ht) as [A L].
  assert (Stop : match rest with
                 | String c _ => is_alnum c = false
                 | EmptyString => True
                 end)
    by (destruct rest as [| c r]; [exact I | now subst c]).
  destruct t as [| a t].
  - cbn [append String.eqb]. unfold selector_exec.
    destruct rest as [| c r]; [reflexivity |]. subst c. reflexivity.
  - unfold selector_exec.
    change (String a t ++ rest)%string with (String a (t ++ rest)).
    cbv beta iota. rewrite L.
    change (String a (t ++ rest)) with (String a t ++ rest)%string.
    rewrite (span_alnum_stop _ _ A Stop).
    destruct rest as [| c r]; [reflexivity |]. subst c. reflexivity.
Qed.

(** X18.  A selector written as a tag name and class names joined by
    dots -- [div.card.big] -- gives that tag and the class names
    separated by single spaces, whether the expression takes it (no or
    one class) or the split on dots does (two classes or more).  Without
    tag name the tag is "div". *)
Theorem parse_dotted_selector (t : string) (classes : list string) :
  t = "" \/ tag_name t = true ->
  forallb class_name classes = true ->
  parse (t ++ dotted classes) =
  mkParsed (if (t =? "")%string then "div" else t) (join_space classes).
Proof.
  intros Ht Hcs.
  destruct (tag_name_chars t Ht) as [A _].
  assert (W : forallb (all_chars is_word) classes = true).
  { apply (forallb_impl _ class_name); [| exact Hcs].
    intros c Hc. now apply class_name_chars in Hc. }
  assert (NS : all_chars (fun c => negb (is_space c)) (t ++ dotted classes)
               = true).
  { rewrite all_chars_app. apply andb_true_iff. split.
    - apply (all_chars_impl is_alnum); [| exact A].
      intros a Ha. now rewrite (word_not_space a (alnum_word a Ha)).
    - apply dotted_chars; [reflexivity |].
      apply (forallb_impl _ class_name); [| exact Hcs].
      intros c Hc. now apply class_name_chars in Hc. }
  unfold parse. rewrite (trim_no_space _ NS).
  assert (Tag : or_div (if (t =? "")%string then None else Some t) =
                if (t =? "")%string then "div" else t).
  { destruct (t =? "")%string eqn:E; [reflexivity |]. cbn. now rewrite E. }
  destruct classes as [| c [| c2 cs]].
  - rewrite (selector_exec_shape t (dotted []) Ht I). cbn [dotted].
    cbv zeta. now rewrite Tag.
  - cbn in Hcs. rewrite andb_true_r in Hcs.
    apply class_name_chars in Hcs as (N & Wc & Sc & _).
    rewrite (selector_exec_shape t (dotted [c]) Ht eq_refl).
    cbn [dotted]. rewrite append_empty_r. cbv zeta.
    assert (C : class_list NeedWord c = true).
    { destruct c as [| a c]; [now elim N |].
      cbn in Wc |- *. apply andb_true_iff in Wc as [Ha Wc].
      rewrite Ha. now apply class_list_words. }
    rewrite C, Tag. apply String.eqb_neq in N. rewrite N.
    now rewrite (collapse_no_space false c Sc).
  - assert (X : selector_exec (t ++ dotted (c :: c2 :: cs)) = None).
    { rewrite (selector_exec_shape t (dotted (c :: c2 :: cs)) Ht eq_refl).
      cbn [dotted append].
      now rewrite (class_list_stuck NeedWord c _ "."%char eq_refl eq_refl). }
    rewrite X. cbv zeta. rewrite split_dot_dotted.
    + cbn [nth_error length Nat.ltb Nat.leb skipn].
      destruct (t =? "")%string eqn:E; cbn [or_div]; now rewrite ?E.
    + apply (all_chars_impl is_alnum); [| exact A].
      intros a Ha. now rewrite (word_not_dot a (alnum_word a Ha)).
    + apply (forallb_impl _ class_name); [| exact Hcs].
      intros x Hx. now apply class_name_chars in Hx.
Qed.

End MountProperties.

(** * The further properties, on the scenarios *)

Lemma apiRequest_error_message_witness :
  fst (apiRequest failing_server "/orders" "GET" VNull (fresh_page None)) =
  Throw (Error "boom").
Proof.
  destruct (apiRequest_error_message failing_server "/orders" "GET" VNull
              (fresh_page None)
              (mkResponse 500 (Some (VObj 3 [("message", VStr "boom")])))
              eq_refl eq_refl) as [_ H].
  cbn [json get_field lookup_field String.eqb Ascii.eqb Bool.eqb] in H.
  destruct H as (_ & H & _). exact (H eq_refl eq_refl).
Defined.

Lemma apiCall_differs_only_on_401_witness :
  apiCall failing_server 1 "/orders" "GET" VNull session_page =
  apiRequest failing_server "/orders" "GET" VNull session_page.
Proof.
  apply (apiCall_differs_only_on_401 failing_server 0 "/orders" "GET" VNull
           session_page).
  intros response H. injection H as <-. discriminate.
Defined.

Lemma login_then_requests_carry_bearer_witness :
  let w' := snd (login friendly_server 3 (VStr "a@x.com") (VStr "pw")
                   (fresh_page None)) in
  requests (snd (apiRequest friendly_server "/orders" "GET" VNull w')) =
  requests w' ++
    [mkRequest "/orders"
       (mkOptions "GET"
          [("Content-Type", "application/json");
           ("Authorization", "Bearer A1")] None)].
Proof.
  intros w'.
  apply (login_then_requests_carry_bearer friendly_server 0
           (VStr "a@x.com") (VStr "pw") (session_body "A1" "R1")
           (fresh_page None) w' "A1").
  - vm_compute. reflexivity.
  - reflexivity.
  - discriminate.
Defined.

Lemma login_establishes_session_witness :
  let w' := snd (login friendly_server 3 (VStr "a@x.com") (VStr "pw")
                   (fresh_page None)) in
  exists a r u h,
    authState w' = mkAuthState a r u /\
    refreshInterval w' = Some h /\
    timers w' = [mkTimer h REFRESH_INTERVAL].
Proof.
  intros w'.
  destruct (login_establishes_session friendly_server 0
              (VStr "a@x.com") (VStr "pw") (session_body "A1" "R1")
              (fresh_page None) w')
    as (a & r & u & h & _ & _ & _ & A & _ & _ & I & _ & T & _).
  - vm_compute. reflexivity.
  - exists a, r, u, h. repeat split; auto. apply T. reflexivity.
Defined.

Lemma refreshToken_rotates_witness :
  let run := refreshToken friendly_server 2 (fresh_page (Some "R1")) in
  present (storage (fresh_page (Some "R1"))) = true /\
  requests (snd (refreshToken friendly_server 2 (snd run))) =
  requests (snd run) ++
    [mkRequest "/refresh"
       (options_for (access (authState (snd run))) "POST"
          (VObj 0 [("refresh_token", VStr "R2")]))].
Proof.
  intros run. split; [reflexivity |].
  destruct (refreshToken_rotates friendly_server 0 (fresh_page (Some "R1"))
              eq_refl) as [_ H].
  apply (H (session_body "A2" "R2") "R2").
  - vm_compute. reflexivity.
  - reflexivity.
  - discriminate.
Defined.

Lemma login_unexpected_body_witness :
  let run := login text_body_server 1 (VStr "a@x.com") (VStr "pw")
               session_page in
  fst run = Ok (VStr "ok") /\
  authState (snd run) = mkAuthState VUndefined VUndefined VUndefined /\
  storage (snd run) = None.
Proof.
  intros run.
  destruct (login_unexpected_body text_body_server 0 (VStr "a@x.com")
              (VStr "pw") session_page (mkResponse 200 (Some (VStr "ok")))
              eq_refl eq_refl) as (_ & _ & H).
  destruct (H (VStr "ok") eq_refl) as (A & B & C & _).
  - left. now exists "ok".
  - now repeat split.
Defined.

Lemma register_does_not_log_in_witness :
  let run := register friendly_server 1 (VStr "a@x.com") (VStr "pw")
               (VStr "ACME") (fresh_page None) in
  fst run = Ok VNull /\ authState (snd run) = no_auth /\
  storage (snd run) = None.
Proof.
  intros run.
  destruct (register_does_not_log_in friendly_server 0 (VStr "a@x.com")
              (VStr "pw") (VStr "ACME") (fresh_page None)) as [W H].
  - intros response E. injection E as <-. discriminate.
  - fold run in W, H. split.
    + apply (H (mkResponse 200 (Some VNull)) VNull); reflexivity.
    + now rewrite W.
Defined.

Lemma unawaited_logout_completes_later_witness :
  let w1 := snd (logout_unawaited offline_server session_page) in
  let w2 := snd (resumeLogout offline_server 2 w1) in
  pending session_page = [] /\
  storage w1 = Some "R1" /\
  storage w2 = None /\
  navigations w2 = ["/index.html"].
Proof.
  intros w1 w2. split; [reflexivity |].
  destruct (unawaited_logout_completes_later offline_server 0 session_page
              eq_refl) as ((_ & S1 & _) & _ & _ & S2 & _ & _ & N).
  fold w1 in S1. fold w1 w2 in S2, N.
  now rewrite S1, S2, N.
Defined.

Lemma apiCall_return_is_quiet_witness :
  let run := apiCall friendly_server 3 "/orders" "GET" VNull session_page in
  fst run = Ok (VStr "orders") /\
  refreshInterval (snd run) = Some 1%positive /\
  pending (snd run) = [].
Proof.
  intros run.
  destruct (apiCall_return_is_quiet friendly_server 0 "/orders" "GET" VNull
              session_page) as (_ & _ & H & _).
  fold run in H.
  assert (E : fst run = Ok (VStr "orders")) by (vm_compute; reflexivity).
  destruct (H _ E) as (I & _ & P). now rewrite I, P.
Defined.

Lemma renewal_adopts_answer_witness :
  let w' := snd (refreshToken friendly_server 2 (fresh_page (Some "R1"))) in
  exists a r u, authState w' = mkAuthState a r u /\
                same_page (fresh_page (Some "R1")) w'.
Proof.
  intros w'.
  destruct (renewal_adopts_answer friendly_server 0 (fresh_page (Some "R1")))
    as [H _].
  destruct (H (session_body "A2" "R2") w')
    as (a & r & u & _ & _ & _ & A & _ & F).
  - vm_compute. reflexivity.
  - now exists a, r, u.
Defined.

Lemma parseSelector_cache_is_transparent_witness :
  let st := snd (Mount.parseSelector "div.card" Mount.initial) in
  Mount.reachable st /\
  fst (Mount.parseSelector "div.card" st) = Mount.parse "div.card".
Proof.
  intros st.
  assert (R : Mount.reachable st)
    by apply Mount.reach_parse, Mount.reach_initial.
  split; [exact R |].
  exact (proj1 (parseSelector_cache_is_transparent "div.card" st R)).
Defined.

Lemma parseSelector_tag_nonempty_witness :
  Mount.reachable Mount.initial /\
  Mount.tag (fst (Mount.parseSelector ".card" Mount.initial)) <> "".
Proof.
  split; [apply Mount.reach_initial |].
  apply (parseSelector_tag_nonempty ".card" Mount.initial).
  apply Mount.reach_initial.
Defined.

Lemma clearCaches_resets_witness :
  let st := snd (Mount.parseSelector "div.card" Mount.initial) in
  (length (Mount.TEXT_NODE_POOL st) <= 100)%nat /\
  Mount.TEXT_NODE_POOL (Mount.clearCaches st) = Mount.TEXT_NODE_POOL st.
Proof.
  intros st.
  assert (L : (length (Mount.TEXT_NODE_POOL st) <= 100)%nat) by (cbn; lia).
  split; [exact L |].
  destruct (clearCaches_resets st) as (_ & _ & H & _). exact (H L).
Defined.

Lemma parse_ignores_outer_space_witness :
  Mount.parse "  span.note " = Mount.parse "span.note".
Proof.
  apply (parse_ignores_outer_space "  " "span.note" " "); reflexivity.
Defined.

Lemma parse_dotted_selector_witness :
  Mount.parse "div.card.big" = Mount.mkParsed "div" "card big".
Proof.
  apply (parse_dotted_selector "div" ["card"; "big"]).
  - right. reflexivity.
  - reflexivity.
Defined.

(** * The 401 protocol, on the scenarios *)

(** ** C1 *)

Lemma apiCall_retries_own_request_once_witness :
  let call := apiCall friendly_server 3 "/orders" "GET" VNull
                (fresh_page (Some "R1")) in
  fst call = Ok (VStr "orders") /\
  map r_endpoint (requests (snd call)) = ["/orders"; "/refresh"; "/orders"] /\
  pending (snd call) = [].
Proof.
  intros call.
  destruct (apiCall_retries_own_request_once friendly_server 0 "/orders" "GET"
              VNull (fresh_page (Some "R1"))) as [H _].
  specialize (H (mkResponse 401 None) eq_refl eq_refl).
  assert (N : "/orders" <> "/refresh") by discriminate.
  specialize (H N). fold call in H. clearbody call.
  cbn in H.
  destruct H as (a1 & s & _ & <- & _ & _ & _ & R & Q & P & _).
  rewrite R, Q, P. now repeat split.
Defined.

(** When every access token has expired for the service, the failed retry
    of /orders starts a logout, and that logout's own call to /logout is
    answered 401 as well: once it is resumed it makes a second renewal
    and a second retry (the sixth request), fails again and starts a
    further logout, and so does every logout after it.  The execution one
    call started holds two retries and no end of logouts. *)
Lemma one_call_several_retries_counterexample :
  let call := apiCall expired_server 3 "/orders" "GET" VNull session_page in
  let w2 := snd (resumeLogout expired_server 3 (snd call)) in
  let w3 := snd (resumeLogout expired_server 3 w2) in
  fst call = Throw (Error "Retry failed") /\
  map r_endpoint (requests (snd call)) =
    ["/orders"; "/refresh"; "/orders"; "/logout"] /\
  map r_endpoint (requests w2) =
    ["/orders"; "/refresh"; "/orders"; "/logout";
     "/refresh"; "/logout"; "/logout"] /\
  map r_endpoint (requests w3) =
    ["/orders"; "/refresh"; "/orders"; "/logout";
     "/refresh"; "/logout"; "/logout"; "/logout"] /\
  navigations w3 = ["/index.html"; "/index.html"] /\
  length (pending w3) = 1%nat.
Proof.
  vm_compute. now repeat split.
Qed.

Lemma retry_always_carries_authorization_witness :
  In (mkRequest "/orders"
        (mkOptions "GET"
           [("Content-Type", "application/json");
            ("Authorization", "Bearer undefined")] None))
     (requests (snd (apiCall tokenless_server 3 "/orders" "GET" VNull
                       session_page))).
Proof.
  destruct (retry_always_carries_authorization tokenless_server 0
              "/orders" "GET" VNull session_page (mkResponse 401 None)
              (VObj 1 [("refreshToken", VStr "R2")])
              (snd (refreshToken tokenless_server 2
                      (sent (mkRequest "/orders"
                               (options_for (VStr "A1") "GET" VNull))
                         session_page))))
    as (a1 & l & Ga & Q & _).
  - reflexivity.
  - reflexivity.
  - discriminate.
  - vm_compute. reflexivity.
  - cbn in Ga. injection Ga as <-.
    rewrite Q. apply in_or_app. right. left. reflexivity.
Defined.
